(** * HuggingFaceArchitecture: a shallow embedding of
      [src/architectures/huggingface_architecture.py]

    The Lightning module wraps a sequence-to-sequence model: it dispatches
    on a mode string, assembles per-batch result dictionaries, selects an
    optimizer by a strategy string and composes a warmup / cosine
    learning-rate schedule.

    Python [int] is modelled by [Z]; Python [float] by IEEE-754 binary64
    with round-to-nearest-even written out (module [F64]); dictionaries by
    stdpp's [gmap]; exceptions by an error result; the mutable module
    object by explicit state passing with a trace of the calls made to the
    external collaborators (model, tokenizer, metrics, trainer). *)

From Stdlib Require Import ZArith Lia Bool List Reals Lra.
From Stdlib Require Floats.
From stdpp Require Import gmap strings list fin_maps.

Set Warnings "-register-all".

(** ** Python exceptions raised (or propagated) by the module *)

Inductive exception :=
| KeyError (key : string)
| TypeError
| IndexError
| ValueError (msg : string)
| OverflowError
| ZeroDivisionError.

Inductive result (A : Type) :=
| OK (a : A)
| Raise (e : exception).
Arguments OK {A} a.
Arguments Raise {A} e.

(** Inverting an equation between two results. *)
Ltac inv_result H :=
  match type of H with
  | OK _ = OK _ => inversion H; subst; clear H
  | Raise _ = OK _ => discriminate H
  | OK _ = Raise _ => discriminate H
  end.

(** ** Binary64 floating point, as Python's [float] *)

Module F64.
Local Open Scope Z_scope.

Definition prec : Z := 53.
Definition emax : Z := 1024.
Definition emin : Z := 3 - emax - prec.

(** Every finite binary64 number is an integer multiple of [2^emin]
    ([emin = -1074]). [Finite k] denotes [k * 2^emin]; the two signed zeros
    are identified (the module never observes the sign of a zero). *)
Inductive float :=
| Finite (k : Z)
| Infinity (negative : bool)
| NaN.

(** The number of units [2^emin] in [1.0]. *)
Definition one_units : Z := 2 ^ (- emin).

Definition zero : float := Finite 0.
Definition one : float := Finite one_units.

(** Nearest integer to [n / d], ties to the even one ([0 < d]). *)
Definition round_half_even (n d : Z) : Z :=
  let q := n / d in
  match 2 * (n mod d) ?= d with
  | Lt => q
  | Gt => q + 1
  | Eq => if Z.even q then q else q + 1
  end.

(** The spacing of the floats around [n / d] units is [2^binade_shift]:
    one unit up to [2^prec], doubling with each binade above. *)
Definition binade_shift (n d : Z) : Z :=
  Z.max 0 (Z.log2 (Z.abs n / d) - (prec - 1)).

(** [n / d] units rounded to a multiple of the local spacing. *)
Definition round_units (n d : Z) : Z :=
  let sh := binade_shift n d in
  round_half_even n (d * 2 ^ sh) * 2 ^ sh.

Definition round_to_float (n d : Z) : float :=
  let k := round_units n d in
  if Z.abs k <? 2 ^ (emax - emin) then Finite k else Infinity (k <? 0).

(** [x * y]: IEEE multiplication (Python never raises here). *)
Definition fmul (x y : float) : float :=
  match x, y with
  | NaN, _ | _, NaN => NaN
  | Infinity s, Infinity t => Infinity (xorb s t)
  | Infinity s, Finite k | Finite k, Infinity s =>
      if k =? 0 then NaN else Infinity (xorb s (k <? 0))
  | Finite a, Finite b => round_to_float (a * b) one_units
  end.

(** [x / y]: Python raises [ZeroDivisionError] on a zero divisor and
    otherwise performs IEEE division. *)
Definition fdiv (x y : float) : result float :=
  match x, y with
  | _, Finite 0 => Raise ZeroDivisionError
  | NaN, _ | _, NaN => OK NaN
  | Infinity _, Infinity _ => OK NaN
  | Infinity s, Finite b => OK (Infinity (xorb s (b <? 0)))
  | Finite _, Infinity _ => OK zero
  | Finite a, Finite b => OK (round_to_float (Z.sgn b * a * one_units) (Z.abs b))
  end.

(** [float(n)] for a Python int: correctly rounded, [OverflowError] when
    the rounded value exceeds the largest finite float. *)
Definition float_of_int (n : Z) : result float :=
  match round_to_float (n * one_units) 1 with
  | Finite k => OK (Finite k)
  | _ => Raise OverflowError
  end.

(** [int(x)] for a Python float: truncation toward zero. *)
Definition int_of_float (x : float) : result Z :=
  match x with
  | Finite k => OK (Z.quot k one_units)
  | Infinity _ => Raise OverflowError
  | NaN => Raise (ValueError "cannot convert float NaN to integer")
  end.

(** The mathematical floor of a finite float. *)
Definition floor (x : float) : option Z :=
  match x with
  | Finite k => Some (k / one_units)
  | _ => None
  end.

Definition fleb (x y : float) : bool :=
  match x, y with
  | NaN, _ | _, NaN => false
  | Finite a, Finite b => a <=? b
  | Infinity s, Infinity t => implb t s
  | Infinity s, Finite _ => s
  | Finite _, Infinity t => negb t
  end.

Definition feqb (x y : float) : bool := fleb x y && fleb y x.

Definition is_finite (x : float) : Prop := exists k, x = Finite k.

(** The non-negative values the format holds exactly, up to overflow: at
    most [prec] significant bits. *)
Definition representable (b : Z) : Prop :=
  exists m t, 0 <= t /\ 0 <= m <= 2 ^ prec /\ b = m * 2 ^ t.

(** *** Agreement with the Standard Library's IEEE specification *)

Definition to_spec (x : float) : SpecFloat.spec_float :=
  match x with
  | Finite k => SpecFloat.binary_normalize prec emax k emin false
  | Infinity s => SpecFloat.S754_infinity s
  | NaN => SpecFloat.S754_nan
  end.

Definition of_spec (x : SpecFloat.spec_float) : float :=
  match x with
  | SpecFloat.S754_zero _ => Finite 0
  | SpecFloat.S754_infinity s => Infinity s
  | SpecFloat.S754_nan => NaN
  | SpecFloat.S754_finite s m e =>
      Finite ((if s then -1 else 1) * Z.pos m * 2 ^ (e - emin))
  end.

Definition of_prim (x : PrimFloat.float) : float := of_spec (FloatOps.Prim2SF x).

End F64.

(** ** Errors and state: the monads the module runs in *)

Global Instance result_ret : MRet result := fun _ a => OK a.
Global Instance result_bind : MBind result := fun _ _ f r =>
  match r with
  | OK a => f a
  | Raise e => Raise e
  end.

(** Tensors of token ids or labels, shape [batch, seq]. *)
Abbreviation ids := (list (list Z)).
(** Logits, shape [batch, seq, vocab]. *)
Abbreviation logits := (list (list (list F64.float))).
(** [Dict[str, torch.Tensor]]: the tokenized model input. *)
Abbreviation encoded := (gmap string ids).

(** The values of a batch ([Dict[str, Any]]): the collated [encoded]
    dictionary and the [index] tensor of sample identifiers. *)
Inductive batch_entry :=
| BDict (d : encoded)
| BTensor (t : list Z).

Abbreviation batch := (gmap string batch_entry).

(** What the wrapped model returns from a forward pass. *)
Record model_output := {
  output_logits : logits;
  output_loss : F64.float;
}.

(** The values stored in the dictionaries the step functions return. *)
Inductive value :=
| VScalar (x : F64.float)
| VLogits (l : logits)
| VIds (t : ids)
| VStrings (s : list string)
| VEntry (e : batch_entry).

(** Metric values reported by a metric collection, keyed by name. *)
Abbreviation metric_values := (gmap string F64.float).

(** Calls made to the external collaborators, in program order. *)
Inductive call :=
| ModelTrain
| ModelEval
| ModelForward (e : encoded)
| ModelGenerate (e : encoded)
| BatchDecode (sequences : ids) (skip_special_tokens clean_up_tokenization_spaces : bool)
| Log (name : string) (v : value) (on_step on_epoch prog_bar sync_dist : bool)
| LogDict (m : metric_values) (on_step on_epoch prog_bar sync_dist : bool)
| AllGather (data : gmap Z string).

(** Modelled from the spec: the MetricAccumulator of the metrics library
    (torchmetrics, not part of this repository), a running aggregation
    over the samples recorded since the last reset. It is represented by
    the recorded (prediction, target) pairs. *)
Abbreviation accumulator := (list (string * string)).

(** The mutable part of the module object. [val_metrics] and
    [test_metrics] are independent clones ([metrics.clone]) and share
    nothing. [peers] holds the mappings the other workers build in their
    own [predict_step]. *)
Record state := {
  training : bool;
  val_metrics : accumulator;
  test_metrics : accumulator;
  peers : list (gmap Z string);
  calls : list call;
}.

Definition M (A : Type) : Type := state -> result A * state.

Global Instance M_ret : MRet M := fun _ a st => (OK a, st).
Global Instance M_bind : MBind M := fun _ _ f m st =>
  match m st with
  | (OK a, st') => f a st'
  | (Raise e, st') => (Raise e, st')
  end.

Definition raise {A} (e : exception) : M A := fun st => (Raise e, st).

(** The state after a call is recorded, and after the model's mode flag
    is set. *)
Definition record_call (c : call) (st : state) : state :=
  {| training := training st; val_metrics := val_metrics st;
     test_metrics := test_metrics st; peers := peers st;
     calls := calls st ++ [c] |}.

Definition with_training (b : bool) (st : state) : state :=
  {| training := b; val_metrics := val_metrics st;
     test_metrics := test_metrics st; peers := peers st;
     calls := calls st |}.

Definition emit (c : call) : M unit := fun st => (OK tt, record_call c st).

Definition set_training (b : bool) : M unit := fun st => (OK tt, with_training b st).

Definition get_training : M bool := fun st => (OK (training st), st).

(** [d[k]] on a Python dict. *)
Definition getitem {V} (d : gmap string V) (k : string) : M V :=
  match d !! k with
  | Some v => mret v
  | None => raise (KeyError k)
  end.

(** Using a batch value as a dictionary, or as a tensor. *)
Definition as_dict (v : batch_entry) : M encoded :=
  match v with
  | BDict d => mret d
  | BTensor _ => raise TypeError
  end.

Definition tolist (v : batch_entry) : M (list Z) :=
  match v with
  | BTensor t => mret t
  | BDict _ => raise TypeError
  end.

(** ** External collaborators

    The model, the tokenizer and the metric are black boxes with fixed
    call contracts. The model's results may depend on its behavioural
    mode ([training]); [tokenizer_decode] is the tokenizer's
    single-sequence [decode] with its two flags. *)
Record collaborators := {
  model_call : bool -> encoded -> model_output;
  model_generate : bool -> encoded -> ids;
  tokenizer_decode : bool -> bool -> list Z -> string;
  rouge_score : list string -> list string -> list (string * F64.float);
}.

(** [torch.argmax]: the index of the first maximal entry; a NaN counts as
    maximal. Rows are non-empty (the vocabulary has at least one entry). *)
Definition greater_or_nan (x best : F64.float) : bool :=
  match x, best with
  | F64.NaN, F64.NaN => false
  | F64.NaN, _ => true
  | _, F64.NaN => false
  | _, _ => negb (F64.fleb x best)
  end.

Fixpoint argmax_from (row : list F64.float) (i : nat) (best : F64.float) (best_i : nat)
    : nat :=
  match row with
  | [] => best_i
  | x :: row' =>
      if greater_or_nan x best then argmax_from row' (S i) x i
      else argmax_from row' (S i) best best_i
  end.

Definition argmax (row : list F64.float) : Z :=
  match row with
  | [] => 0
  | x :: row' => Z.of_nat (argmax_from row' 1 x 0)
  end.

(** [torch.argmax(logit, dim=-1)] *)
Definition argmax_last (logit : logits) : ids := map (map argmax) logit.

(** The hyperparameters stored by [__init__], the module's parameters and
    the trainer's [estimated_stepping_batches], an int. *)
Record hparams := {
  parameters : list string;
  strategy : string;
  lr : F64.float;
  weight_decay : F64.float;
  warmup_ratio : F64.float;
  eta_min_ratio : F64.float;
  interval : string;
  estimated_stepping_batches : Z;
}.

Inductive optimizer :=
| FusedAdam (params : list string) (lr weight_decay : F64.float)
| DeepSpeedCPUAdam (params : list string) (lr weight_decay : F64.float)
| AdamW (params : list string) (lr weight_decay : F64.float).

(** The torch schedulers, as the data their constructors are given. *)
Inductive scheduler :=
| LambdaLR (opt : optimizer) (lr_lambda : Z -> result F64.float)
| CosineAnnealingLR (opt : optimizer) (T_max : Z) (eta_min : F64.float)
| SequentialLR (opt : optimizer) (schedulers : list scheduler) (milestones : list Z).

Record lr_scheduler_config := {
  config_scheduler : scheduler;
  config_interval : string;
}.

Record optimizer_config := {
  config_optimizer : optimizer;
  config_lr_scheduler : lr_scheduler_config;
}.

(** The locals of [configure_optimizers] that fix the schedule. *)
Record schedule_state := {
  total_steps : Z;
  warmup_steps : Z;
  t_max : Z;
  eta_min : F64.float;
}.

(** ** The module's methods *)

Section Methods.
Context (ext : collaborators).

(** [self.model.train()], [self.model.eval()], [self.model(encoded)] and
    [self.model.generate(encoded=encoded)]. *)
Definition model_train : M unit :=
  _ ← emit ModelTrain; set_training true.

Definition model_eval : M unit :=
  _ ← emit ModelEval; set_training false.

Definition call_model (e : encoded) : M model_output :=
  _ ← emit (ModelForward e);
  mode ← get_training;
  mret (model_call ext mode e).

Definition generate (e : encoded) : M ids :=
  _ ← emit (ModelGenerate e);
  mode ← get_training;
  mret (model_generate ext mode e).

(** [self.tokenizer.batch_decode]: one decoded string per sequence. *)
Definition batch_decode (sequences : ids)
    (skip_special_tokens clean_up_tokenization_spaces : bool) : M (list string) :=
  _ ← emit (BatchDecode sequences skip_special_tokens clean_up_tokenization_spaces);
  mret (map (tokenizer_decode ext skip_special_tokens clean_up_tokenization_spaces)
            sequences).

(** The spec's [InvalidModeError] is the [ValueError] of [forward]. *)
Definition InvalidModeError (mode : string) : exception :=
  ValueError ("Invalid model mode: " +:+ mode).

Definition forward (e : encoded) (mode : string) : M model_output :=
  _ ← (if String.eqb mode "train" then model_train
       else if String.eqb mode "eval" then model_eval
       else raise (InvalidModeError mode));
  output ← call_model e;
  mret output.

Definition step (b : batch) (mode : string) : M (gmap string value) :=
  entry ← getitem b "encoded";
  e ← as_dict entry;
  label ← getitem e "labels";
  index ← getitem b "index";
  output ← forward e mode;
  let logit := output_logits output in
  let pred := argmax_last logit in
  let loss := output_loss output in
  if String.eqb mode "train" then
    mret (list_to_map
            [("loss", VScalar loss);
             ("logit", VLogits logit);
             ("pred", VIds pred);
             ("label", VIds label);
             ("index", VEntry index)])
  else
    generation ← generate e;
    decoded_generation ← batch_decode generation true false;
    decoded_label ← batch_decode label true false;
    mret (list_to_map
            [("loss", VScalar loss);
             ("logit", VLogits logit);
             ("pred", VIds pred);
             ("generation", VIds generation);
             ("decoded_generation", VStrings decoded_generation);
             ("label", VIds label);
             ("decoded_label", VStrings decoded_label);
             ("index", VEntry index)]).

End Methods.

(** *** configure_optimizers *)

(** The closure [lr_lambda], with the [warmup_steps] it captures. *)
Definition lr_lambda (warmup_steps current_step : Z) : result F64.float :=
  if (current_step <? warmup_steps)%Z then
    a ← F64.float_of_int current_step;
    b ← F64.float_of_int (Z.max 1 warmup_steps);
    F64.fdiv a b
  else OK F64.one.

(** Lines 114-134: the optimizer class and its arguments are chosen by
    comparing the strategy string; the last branch takes every other
    string. The result is the constructor call to make. *)
Definition select_optimizer (self : hparams) : optimizer :=
  if String.eqb (strategy self) "deepspeed_stage_3" then
    FusedAdam (parameters self) (lr self) (weight_decay self)
  else if String.eqb (strategy self) "deepspeed_stage_2_offload"
          || String.eqb (strategy self) "deepspeed_stage_3_offload" then
    DeepSpeedCPUAdam (parameters self) (lr self) (weight_decay self)
  else
    AdamW (parameters self) (lr self) (weight_decay self).

(** Lines 135-138: [int * float] converts the int first; [int()]
    truncates. *)
Definition compute_schedule_state (self : hparams) : result schedule_state :=
  let total_steps := estimated_stepping_batches self in
  total ← F64.float_of_int total_steps;
  warmup_steps ← F64.int_of_float (F64.fmul total (warmup_ratio self));
  let t_max := (total_steps - warmup_steps)%Z in
  let eta_min := F64.fmul (lr self) (eta_min_ratio self) in
  OK {| total_steps := total_steps; warmup_steps := warmup_steps;
        t_max := t_max; eta_min := eta_min |}.

(** Running the constructor that [select_optimizer] has chosen. The
    optimizer classes belong to torch and deepspeed; what they accept is
    theirs to decide, so the constructor is a parameter that may raise
    (torch's rejects a negative [lr] or an empty parameter list with
    [ValueError]). The optimizer is built before the schedule is
    computed. *)
Definition configure_optimizers (construct : optimizer -> result unit)
    (self : hparams) : result optimizer_config :=
  let optimizer := select_optimizer self in
  _ ← construct optimizer;
  s ← compute_schedule_state self;
  let warmup_scheduler := LambdaLR optimizer (lr_lambda (warmup_steps s)) in
  let main_scheduler := CosineAnnealingLR optimizer (t_max s) (eta_min s) in
  let scheduler :=
    SequentialLR optimizer [warmup_scheduler; main_scheduler] [warmup_steps s] in
  OK {| config_optimizer := optimizer;
        config_lr_scheduler :=
          {| config_scheduler := scheduler; config_interval := interval self |} |}.

(** *** The composed schedule *)

(** What a scheduler contributes at one of its own steps: [LambdaLR]
    scales the initial learning rate by [lr_lambda t]; [CosineAnnealingLR]
    yields the cosine value after [t] of its [T_max] steps. *)
Inductive schedule_value :=
| Multiplier (m : result F64.float)
| Cosine (T_max : Z) (eta_min : F64.float) (t : Z).

(** The two states of the schedule (spec, section 4.2). *)
Inductive phase := WARMUP | ANNEAL.

Definition phase_of (v : schedule_value) : phase :=
  match v with
  | Multiplier _ => WARMUP
  | Cosine _ _ _ => ANNEAL
  end.

Definition scheduler_at (s : scheduler) (t : Z) : option schedule_value :=
  match s with
  | LambdaLR _ f => Some (Multiplier (f t))
  | CosineAnnealingLR _ T e => Some (Cosine T e t)
  | SequentialLR _ _ _ => None
  end.

(** [bisect_right] on a sorted list: the number of entries [<= x]. *)
Definition bisect_right (milestones : list Z) (x : Z) : nat :=
  length (filter (λ m, (m ≤ x)%Z) milestones).

(** Modelled from the spec: the sequential composition of torch's
    [SequentialLR] (not part of this repository). At step [step] exactly
    one scheduler is in charge: the one after the last milestone reached,
    counting its own steps from that milestone. *)
Definition sequential_at (schedulers : list scheduler) (milestones : list Z)
    (step : Z) : option schedule_value :=
  let idx := bisect_right milestones step in
  let start := match idx with
               | O => 0%Z
               | S i => default 0%Z (milestones !! i)
               end in
  s ← schedulers !! idx;
  scheduler_at s (step - start)%Z.

Definition schedule_at (s : scheduler) (step : Z) : option schedule_value :=
  match s with
  | SequentialLR _ schedulers milestones => sequential_at schedulers milestones step
  | _ => scheduler_at s step
  end.

(** Modelled from the spec: the cosine anneal of torch's
    [CosineAnnealingLR] (not part of this repository), from [base_lr]
    down to [eta_min] over [T_max] steps, over the reals. *)
Definition cosine_anneal (base_lr eta_min : R) (T_max t : Z) : R :=
  (eta_min + (base_lr - eta_min) * (1 + cos (PI * IZR t / IZR T_max)) / 2)%R.

(** The real number a finite float denotes. *)
Definition F2R (x : F64.float) : option R :=
  match x with
  | F64.Finite k => Some (IZR k / IZR F64.one_units)%R
  | _ => None
  end.

(** Modelled from the spec: the learning rate that a schedule value
    stands for, with [base_lr] the optimizer's [lr]. The warmup value is
    [base_lr] scaled by the multiplier; the cosine value divides by
    [T_max] and has no value when [T_max = 0]. *)
Definition learning_rate (base_lr : F64.float) (v : schedule_value) : option R :=
  match v with
  | Multiplier (OK m) =>
      b ← F2R base_lr; x ← F2R m; Some (b * x)%R
  | Multiplier (Raise _) => None
  | Cosine T e t =>
      if (T =? 0)%Z then None
      else b ← F2R base_lr; eta ← F2R e; Some (cosine_anneal b eta T t)
  end.

(** *** The training-loop hooks *)

Section Steps.
Context (ext : collaborators).

Definition as_strings (v : value) : M (list string) :=
  match v with
  | VStrings s => mret s
  | _ => raise TypeError
  end.

(** Calling a metric collection records the batch in its accumulator and
    returns the batch's metric values under the collection's prefix. *)
Definition prefixed (prefix : string) (scores : list (string * F64.float)) : metric_values :=
  list_to_map (map (λ kv, (prefix +:+ kv.1, kv.2)) scores).

Definition call_val_metrics (preds targets : list string) : M metric_values := fun st =>
  (OK (prefixed "val_" (rouge_score ext preds targets)),
   {| training := training st;
      val_metrics := val_metrics st ++ zip preds targets;
      test_metrics := test_metrics st; peers := peers st; calls := calls st |}).

Definition call_test_metrics (preds targets : list string) : M metric_values := fun st =>
  (OK (prefixed "test_" (rouge_score ext preds targets)),
   {| training := training st; val_metrics := val_metrics st;
      test_metrics := test_metrics st ++ zip preds targets;
      peers := peers st; calls := calls st |}).

Definition training_step (b : batch) (batch_idx : Z) : M (gmap string value) :=
  output ← step ext b "train";
  loss ← getitem output "loss";
  pred ← getitem output "pred";
  label ← getitem output "label";
  _ ← emit (Log "train_loss" loss false true false true);
  mret (list_to_map [("loss", loss); ("pred", pred); ("label", label)]).

Definition validation_step (b : batch) (batch_idx : Z) : M (gmap string value) :=
  output ← step ext b "eval";
  loss ← getitem output "loss";
  pred ← getitem output "pred";
  generation ← getitem output "generation";
  decoded_generation ← getitem output "decoded_generation";
  label ← getitem output "label";
  decoded_label ← getitem output "decoded_label";
  preds ← as_strings decoded_generation;
  targets ← as_strings decoded_label;
  metrics ← call_val_metrics preds targets;
  _ ← emit (Log "val_loss" loss false true false true);
  _ ← emit (LogDict metrics false true true false);
  mret (list_to_map
          [("loss", loss); ("pred", pred); ("generation", generation);
           ("decoded_generation", decoded_generation); ("label", label);
           ("decoded_label", decoded_label)]).

Definition test_step (b : batch) (batch_idx : Z) : M (gmap string value) :=
  output ← step ext b "eval";
  loss ← getitem output "loss";
  pred ← getitem output "pred";
  generation ← getitem output "generation";
  decoded_generation ← getitem output "decoded_generation";
  label ← getitem output "label";
  decoded_label ← getitem output "decoded_label";
  preds ← as_strings decoded_generation;
  targets ← as_strings decoded_label;
  metrics ← call_test_metrics preds targets;
  _ ← emit (Log "test_loss" loss false true false true);
  _ ← emit (LogDict metrics false true true false);
  mret (list_to_map
          [("loss", loss); ("pred", pred); ("generation", generation);
           ("decoded_generation", decoded_generation); ("label", label);
           ("decoded_label", decoded_label)]).

(** One entry of the dictionary comprehension of [predict_step]:
    [index[i]: decoded_generation[i]]. *)
Definition output_entry (index : list Z) (decoded : list string) (i : nat)
    : result (Z * string) :=
  match index !! i, decoded !! i with
  | Some k, Some s => OK (k, s)
  | _, _ => Raise IndexError
  end.

(** [{index[i]: decoded_generation[i] for i in range(len(index))}]: a
    later entry replaces an earlier one under the same key. *)
Definition dict_comprehension (index : list Z) (decoded : list string)
    : result (gmap Z string) :=
  foldl (λ acc i, m ← acc; kv ← output_entry index decoded i; OK (<[kv.1 := kv.2]> m))
        (OK ∅) (seq 0 (length index)).

Definition lift {A} (r : result A) : M A := fun st => (r, st).

(** [LightningModule.all_gather] (the training-loop engine's, not part
    of this repository) gathers the tensors and numbers held in a
    collection and leaves every other value as it is. The mapping of
    [predict_step] has [str] values under [int] keys, so each worker gets
    its own mapping back: nothing of [peers] reaches it. *)
Definition all_gather (output : gmap Z string) : M (gmap Z string) :=
  _ ← emit (AllGather output);
  mret output.

Definition predict_step (b : batch) (batch_idx : Z) : M (gmap Z string) :=
  entry ← getitem b "encoded";
  e ← as_dict entry;
  index ← getitem b "index";
  index ← tolist index;
  generation ← generate ext e;
  decoded_generation ← batch_decode ext generation true false;
  output ← lift (dict_comprehension index decoded_generation);
  gathered_output ← all_gather output;
  mret gathered_output.

End Steps.

Definition on_train_epoch_end : M unit := mret tt.

(** [reset()] leaves a metric collection with nothing recorded. *)
Definition on_validation_epoch_end : M unit := fun st =>
  (OK tt, {| training := training st; val_metrics := [];
             test_metrics := test_metrics st; peers := peers st;
             calls := calls st |}).

Definition on_test_epoch_end : M unit := fun st =>
  (OK tt, {| training := training st; val_metrics := val_metrics st;
             test_metrics := []; peers := peers st; calls := calls st |}).

(** ** Concrete collaborators, for evaluating the methods *)

Module Fixture.
Import PrimFloat.

(** A tokenizer over a 26-letter vocabulary: token [n > 0] is the letter
    number [n - 1]; token [0] is the padding token, a special token. *)
Definition letter (n : Z) : string :=
  String (Ascii.ascii_of_N (Z.to_N (96 + n mod 27))) "".

Definition decode (skip_special_tokens clean_up : bool) (sequence : list Z) : string :=
  String.concat ""
    (map letter (if skip_special_tokens
                 then List.filter (λ n, negb (n =? 0)%Z) sequence
                 else sequence)).

Definition output : model_output :=
  {| output_logits := [[[F64.zero; F64.one]; [F64.one; F64.zero]]];
     output_loss := F64.one |}.

(** A model that echoes its [input_ids] when asked to generate. *)
Definition ext : collaborators :=
  {| model_call := λ _ _, output;
     model_generate := λ _ e, default [] (e !! "input_ids");
     tokenizer_decode := decode;
     rouge_score := λ _ _, [("rouge1_fmeasure", F64.one)] |}.

Definition enc : encoded :=
  list_to_map [("input_ids", [[3; 1; 20]]); ("labels", [[4; 15; 7; 0]])]%Z.

Definition sample : batch :=
  list_to_map [("encoded", BDict enc); ("index", BTensor [7%Z])].

(** A batch whose sample generates nothing but padding. *)
Definition enc_pad : encoded :=
  list_to_map [("input_ids", [[0; 0]]); ("labels", [[4; 15; 7; 0]])]%Z.

Definition sample_pad : batch :=
  list_to_map [("encoded", BDict enc_pad); ("index", BTensor [7%Z])].

Definition st0 : state :=
  {| training := true; val_metrics := []; test_metrics := [];
     peers := []; calls := [] |}.

Definition self : hparams :=
  {| parameters := ["model.weight"]; strategy := "ddp";
     lr := F64.of_prim 0x1p-10%float; weight_decay := F64.zero;
     warmup_ratio := F64.of_prim 0x1.999999999999ap-4%float;
     eta_min_ratio := F64.of_prim 0x1.999999999999ap-4%float;
     interval := "step"; estimated_stepping_batches := 100 |}.

(** The schedule state of [self]: 100 steps, a tenth of them warmup. *)
Definition schedule : schedule_state :=
  {| total_steps := 100; warmup_steps := 10; t_max := 90;
     eta_min := F64.fmul (lr self) (eta_min_ratio self) |}.

(** A run of [2^53 + 3] steps, all of them warmup. *)
Definition long_run : hparams :=
  {| parameters := ["model.weight"]; strategy := "ddp";
     lr := F64.of_prim 0x1p-10%float; weight_decay := F64.zero;
     warmup_ratio := F64.one;
     eta_min_ratio := F64.of_prim 0x1.999999999999ap-4%float;
     interval := "step"; estimated_stepping_batches := 2 ^ 53 + 3 |}.

(** A constructor with the checks of torch's optimizers: a negative (or
    NaN) [lr] or [weight_decay] and an empty parameter list are refused. *)
Definition check_arguments (params : list string) (lr weight_decay : F64.float)
    : result unit :=
  if negb (F64.fleb F64.zero lr) then Raise (ValueError "Invalid learning rate")
  else if negb (F64.fleb F64.zero weight_decay) then
    Raise (ValueError "Invalid weight_decay value")
  else match params with
       | [] => Raise (ValueError "optimizer got an empty parameter list")
       | _ => OK tt
       end.

Definition construct (o : optimizer) : result unit :=
  match o with
  | FusedAdam params lr weight_decay => check_arguments params lr weight_decay
  | DeepSpeedCPUAdam params lr weight_decay => check_arguments params lr weight_decay
  | AdamW params lr weight_decay => check_arguments params lr weight_decay
  end.


(** Batches that lack an entry. *)
Definition no_index : batch := list_to_map [("encoded", BDict enc)].

Definition no_labels : batch :=
  list_to_map [("encoded", BDict (list_to_map [("input_ids", [[3; 1; 20]])]%Z));
               ("index", BTensor [7%Z])].

(** Two index entries, one generated sequence. *)
Definition sample_short : batch :=
  list_to_map [("encoded", BDict enc); ("index", BTensor [7; 8]%Z)].

(** Two samples under the same index. *)
Definition enc_pair : encoded :=
  list_to_map [("input_ids", [[3; 1; 20]; [4; 15; 7]]);
               ("labels", [[4; 15; 7; 0]; [3; 1; 20; 0]])]%Z.

Definition sample_dup : batch :=
  list_to_map [("encoded", BDict enc_pair); ("index", BTensor [7; 7]%Z)].

(** [self] with another warmup ratio and another number of steps. *)
Definition run (ratio : F64.float) (total : Z) : hparams :=
  {| parameters := parameters self; strategy := strategy self;
     lr := lr self; weight_decay := weight_decay self;
     warmup_ratio := ratio; eta_min_ratio := eta_min_ratio self;
     interval := interval self; estimated_stepping_batches := total |}.

End Fixture.

(** * Properties *)

(** ** Rounding to nearest in binary64 *)

Module F64Facts.
Import F64.
Local Open Scope Z_scope.

Lemma round_half_even_le n d k : 0 < d -> n <= k * d -> round_half_even n d <= k.
Proof.
  intros Hd Hn. unfold round_half_even.
  pose proof (Z.div_mod n d ltac:(lia)) as E.
  pose proof (Z.mod_pos_bound n d Hd) as Hr.
  assert (Hq : n / d < k \/ (n / d = k /\ n mod d = 0)) by nia.
  destruct (2 * (n mod d) ?= d) eqn:C.
  - apply Z.compare_eq in C. destruct (Z.even (n / d)); lia.
  - lia.
  - rewrite Z.compare_gt_iff in C. lia.
Qed.

Lemma round_half_even_ge n d k : 0 < d -> k * d <= n -> k <= round_half_even n d.
Proof.
  intros Hd Hn. unfold round_half_even.
  assert (Hq : k <= n / d) by (apply Z.div_le_lower_bound; lia).
  destruct (2 * (n mod d) ?= d); [destruct (Z.even (n / d)) | |]; lia.
Qed.


Lemma round_half_even_mono n1 n2 d :
  0 < d -> n1 <= n2 -> round_half_even n1 d <= round_half_even n2 d.
Proof.
  intros Hd Hn.
  pose proof (Z.div_le_mono n1 n2 d Hd Hn) as Hq.
  pose proof (Z.div_mod n1 d ltac:(lia)) as E1.
  pose proof (Z.div_mod n2 d ltac:(lia)) as E2.
  pose proof (Z.mod_pos_bound n1 d Hd) as Hr1.
  pose proof (Z.mod_pos_bound n2 d Hd) as Hr2.
  assert (Hc : n1 / d < n2 / d \/ (n1 / d = n2 / d /\ n1 mod d <= n2 mod d)) by nia.
  unfold round_half_even.
  destruct (2 * (n1 mod d) ?= d) eqn:C1; destruct (2 * (n2 mod d) ?= d) eqn:C2;
    try apply Z.compare_eq in C1; try apply Z.compare_eq in C2;
    rewrite ?Z.compare_lt_iff, ?Z.compare_gt_iff in *;
    destruct Hc as [Hc | [Hc Hc']]; try rewrite Hc;
    repeat match goal with |- context [Z.even ?x] => destruct (Z.even x) end; lia.
Qed.

Lemma binade_shift_nonneg n d : 0 <= binade_shift n d.
Proof. unfold binade_shift. lia. Qed.

Lemma pow2_pos t : 0 <= t -> 0 < 2 ^ t.
Proof. intros. apply Z.pow_pos_nonneg; lia. Qed.

Lemma pow2_split a b : 0 <= a <= b -> 2 ^ b = 2 ^ (b - a) * 2 ^ a.
Proof. intros. rewrite <- Z.pow_add_r by lia. f_equal. lia. Qed.

(** Above the first binade the floor of the argument is at least
    [2^(prec-1)] spacings. *)
Lemma binade_shift_lower n d :
  0 < d -> 0 <= n -> 0 < binade_shift n d ->
  2 ^ (prec - 1) * (d * 2 ^ binade_shift n d) <= n.
Proof.
  intros Hd Hn Hs. unfold binade_shift in *.
  rewrite Z.abs_eq in * by lia.
  set (f := n / d) in *.
  assert (Hf : 0 < f).
  { destruct (Z.eq_dec f 0) as [E|E]; [rewrite E in Hs; simpl in Hs; unfold prec in Hs; lia|].
    assert (0 <= f) by (apply Z.div_pos; lia). lia. }
  pose proof (Z.log2_spec f Hf) as [Hlo _].
  rewrite Z.max_r in * by lia.
  assert (E : 2 ^ Z.log2 f = 2 ^ (prec - 1) * 2 ^ (Z.log2 f - (prec - 1))).
  { rewrite <- Z.pow_add_r by (unfold prec in *; lia). f_equal. lia. }
  pose proof (Z.mul_div_le n d Hd). fold f in H.
  pose proof (pow2_pos (Z.log2 f - (prec - 1)) ltac:(lia)).
  nia.
Qed.

(** The argument lies below [2^prec] spacings. *)
Lemma binade_shift_upper n d :
  0 < d -> 0 <= n -> n < 2 ^ prec * (d * 2 ^ binade_shift n d).
Proof.
  intros Hd Hn. unfold binade_shift.
  rewrite Z.abs_eq by lia.
  set (f := n / d).
  assert (Hf0 : 0 <= f) by (apply Z.div_pos; lia).
  assert (Hlt : f < 2 ^ prec * 2 ^ Z.max 0 (Z.log2 f - (prec - 1))).
  { rewrite <- Z.pow_add_r by (unfold prec; lia).
    destruct (Z.eq_dec f 0) as [E|E].
    - rewrite E. apply Z.pow_pos_nonneg; unfold prec; simpl; lia.
    - pose proof (Z.log2_spec f ltac:(lia)) as [_ Hhi].
      eapply Z.lt_le_trans; [exact Hhi|].
      apply Z.pow_le_mono_r; unfold prec; lia. }
  pose proof (Z.div_mod n d ltac:(lia)) as E.
  pose proof (Z.mod_pos_bound n d Hd) as Hr. fold f in E.
  nia.
Qed.

Lemma round_units_le n d b :
  0 < d -> 0 <= n -> representable b -> n <= b * d -> round_units n d <= b.
Proof.
  intros Hd Hn (m & t & Ht & Hm & ->) Hle. unfold round_units.
  set (sh := binade_shift n d).
  pose proof (binade_shift_nonneg n d) as Hsh. fold sh in Hsh.
  pose proof (pow2_pos sh Hsh) as Hp.
  destruct (Z_le_gt_dec sh t) as [Hc|Hc].
  - rewrite (pow2_split sh t) by lia.
    pose proof (pow2_pos (t - sh) ltac:(lia)).
    rewrite Z.mul_assoc. apply Z.mul_le_mono_nonneg_r; [lia|].
    apply round_half_even_le; [nia|].
    rewrite (pow2_split sh t) in Hle by lia. nia.
  - pose proof (binade_shift_lower n d Hd Hn ltac:(fold sh; lia)) as Hlo. fold sh in Hlo.
    assert (Hmt : m * 2 ^ t <= 2 ^ (prec - 1) * 2 ^ sh).
    { rewrite <- Z.pow_add_r by (unfold prec; lia).
      replace (prec - 1 + sh) with (prec + (sh - 1)) by lia.
      rewrite Z.pow_add_r by (unfold prec; lia).
      pose proof (Z.pow_le_mono_r 2 t (sh - 1) ltac:(lia) ltac:(lia)).
      pose proof (pow2_pos t Ht). pose proof (pow2_pos prec ltac:(unfold prec; lia)). nia. }
    assert (Heq : m * 2 ^ t = 2 ^ (prec - 1) * 2 ^ sh) by nia.
    rewrite Heq. apply Z.mul_le_mono_nonneg_r; [lia|].
    apply round_half_even_le; [nia|]. nia.
Qed.

Lemma round_units_ge n d b :
  0 < d -> 0 <= n -> representable b -> b * d <= n -> b <= round_units n d.
Proof.
  intros Hd Hn (m & t & Ht & Hm & ->) Hle. unfold round_units.
  set (sh := binade_shift n d).
  pose proof (binade_shift_nonneg n d) as Hsh. fold sh in Hsh.
  pose proof (pow2_pos sh Hsh) as Hp.
  destruct (Z_le_gt_dec sh t) as [Hc|Hc].
  - rewrite (pow2_split sh t) by lia.
    pose proof (pow2_pos (t - sh) ltac:(lia)).
    rewrite Z.mul_assoc. apply Z.mul_le_mono_nonneg_r; [lia|].
    apply round_half_even_ge; [nia|].
    rewrite (pow2_split sh t) in Hle by lia. nia.
  - pose proof (binade_shift_lower n d Hd Hn ltac:(fold sh; lia)) as Hlo. fold sh in Hlo.
    assert (Hmt : m * 2 ^ t <= 2 ^ (prec - 1) * 2 ^ sh).
    { rewrite <- Z.pow_add_r by (unfold prec; lia).
      replace (prec - 1 + sh) with (prec + (sh - 1)) by lia.
      rewrite Z.pow_add_r by (unfold prec; lia).
      pose proof (Z.pow_le_mono_r 2 t (sh - 1) ltac:(lia) ltac:(lia)).
      pose proof (pow2_pos t Ht). pose proof (pow2_pos prec ltac:(unfold prec; lia)). nia. }
    etransitivity; [exact Hmt|].
    apply Z.mul_le_mono_nonneg_r; [lia|].
    apply round_half_even_ge; [nia|]. nia.
Qed.

Lemma round_units_representable n d :
  0 < d -> 0 <= n -> representable (round_units n d).
Proof.
  intros Hd Hn. unfold round_units.
  set (sh := binade_shift n d).
  pose proof (binade_shift_nonneg n d) as Hsh. fold sh in Hsh.
  pose proof (pow2_pos sh Hsh) as Hp.
  exists (round_half_even n (d * 2 ^ sh)), sh. split; [assumption|]. split; [|reflexivity].
  split.
  - apply round_half_even_ge; [nia|lia].
  - apply round_half_even_le; [nia|].
    pose proof (binade_shift_upper n d Hd Hn). fold sh in H. lia.
Qed.

Lemma binade_shift_mono n1 n2 d :
  0 < d -> 0 <= n1 <= n2 -> binade_shift n1 d <= binade_shift n2 d.
Proof.
  intros Hd Hn. unfold binade_shift. rewrite !Z.abs_eq by lia.
  pose proof (Z.div_le_mono n1 n2 d Hd ltac:(lia)).
  pose proof (Z.log2_le_mono (n1 / d) (n2 / d) H). lia.
Qed.

Lemma round_units_mono n1 n2 d :
  0 < d -> 0 <= n1 <= n2 -> round_units n1 d <= round_units n2 d.
Proof.
  intros Hd Hn.
  pose proof (binade_shift_mono n1 n2 d Hd Hn) as Hs.
  pose proof (binade_shift_nonneg n1 d) as Hs1.
  destruct (Z.eq_dec (binade_shift n1 d) (binade_shift n2 d)) as [E|E].
  - unfold round_units. rewrite E.
    pose proof (pow2_pos (binade_shift n2 d) ltac:(lia)).
    apply Z.mul_le_mono_nonneg_r; [lia|].
    apply round_half_even_mono; [nia|lia].
  - set (b := 2 ^ (prec - 1) * 2 ^ binade_shift n2 d).
    assert (Hb : representable b).
    { exists (2 ^ (prec - 1)), (binade_shift n2 d). repeat split; try lia.
      apply Z.pow_le_mono_r; unfold prec; lia. }
    transitivity b.
    + apply round_units_le; try assumption; try lia.
      pose proof (binade_shift_upper n1 d Hd ltac:(lia)) as Hu.
      unfold b.
      pose proof (Z.pow_le_mono_r 2 (binade_shift n1 d) (binade_shift n2 d - 1) ltac:(lia) ltac:(lia)).
      replace (2 ^ binade_shift n2 d) with (2 * 2 ^ (binade_shift n2 d - 1)).
      2:{ rewrite <- (Z.pow_succ_r 2) by lia. f_equal. lia. }
      replace (2 ^ prec) with (2 * 2 ^ (prec - 1)) in Hu by reflexivity.
      pose proof (pow2_pos (binade_shift n1 d) Hs1).
      assert (0 < 2 ^ (prec - 1)) by (apply pow2_pos; unfold prec; lia).
      nia.
    + apply round_units_ge; try assumption; try lia.
      pose proof (binade_shift_lower n2 d Hd ltac:(lia) ltac:(lia)). unfold b. lia.
Qed.

Lemma one_units_pos : 0 < one_units.
Proof. unfold one_units. apply pow2_pos. unfold emin, emax, prec. lia. Qed.

Lemma zero_representable : representable 0.
Proof. exists 0, 0. unfold prec. repeat split; try lia. Qed.

Lemma one_units_representable : representable one_units.
Proof.
  exists 1, (- emin). unfold one_units, emin, emax, prec.
  repeat split; try lia.
Qed.

Lemma int_representable n : 0 <= n <= 2 ^ prec -> representable (n * one_units).
Proof.
  intros Hn. exists n, (- emin). unfold one_units, emin, emax, prec in *.
  repeat split; lia.
Qed.

Lemma representable_nonneg b : representable b -> 0 <= b.
Proof.
  intros (m & t & Ht & Hm & ->). pose proof (pow2_pos t Ht). nia.
Qed.

Lemma round_units_nonneg n d : 0 < d -> 0 <= n -> 0 <= round_units n d.
Proof.
  intros Hd Hn. apply round_units_ge; auto using zero_representable; lia.
Qed.

Lemma round_units_nonpos n d : 0 < d -> n <= 0 -> round_units n d <= 0.
Proof.
  intros Hd Hn. unfold round_units.
  pose proof (pow2_pos (binade_shift n d) (binade_shift_nonneg n d)) as Hp.
  assert (round_half_even n (d * 2 ^ binade_shift n d) <= 0)
    by (apply round_half_even_le; nia).
  nia.
Qed.

Lemma round_units_exact b d : 0 < d -> representable b -> round_units (b * d) d = b.
Proof.
  intros Hd Hb. pose proof (representable_nonneg b Hb).
  apply Z.le_antisymm.
  - apply round_units_le; auto; nia.
  - apply round_units_ge; auto; nia.
Qed.

(** Rounding stays finite below a representable finite bound. *)
Lemma round_to_float_bounded n d b :
  0 < d -> 0 <= n -> representable b -> b < 2 ^ (emax - emin) -> n <= b * d ->
  round_to_float n d = Finite (round_units n d) /\ 0 <= round_units n d <= b.
Proof.
  intros Hd Hn Hb Hlt Hle.
  pose proof (round_units_nonneg n d Hd Hn) as H0.
  pose proof (round_units_le n d b Hd Hn Hb Hle) as H1.
  unfold round_to_float.
  destruct (Z.ltb_spec (Z.abs (round_units n d)) (2 ^ (emax - emin))); [auto|lia].
Qed.

Lemma round_to_float_finite n d k :
  round_to_float n d = Finite k ->
  k = round_units n d /\ Z.abs k < 2 ^ (emax - emin).
Proof.
  unfold round_to_float.
  destruct (Z.ltb_spec (Z.abs (round_units n d)) (2 ^ (emax - emin)));
    intros E; inversion E; subst; auto.
Qed.

Lemma one_units_finite : one_units < 2 ^ (emax - emin).
Proof.
  unfold one_units. apply Z.pow_lt_mono_r; unfold emin, emax, prec; lia.
Qed.

Lemma int_units_finite n : 0 <= n <= 2 ^ prec -> n * one_units < 2 ^ (emax - emin).
Proof.
  intros Hn. pose proof one_units_pos.
  apply Z.le_lt_trans with (2 ^ prec * one_units); [nia|].
  unfold one_units. rewrite <- Z.pow_add_r by (unfold emin, emax, prec; lia).
  apply Z.pow_lt_mono_r; unfold emin, emax, prec; lia.
Qed.

(** *** Conversions between [int] and [float] *)

(** Integers of at most [prec] bits convert exactly. *)
Lemma float_of_int_exact n :
  0 <= n <= 2 ^ prec -> float_of_int n = OK (Finite (n * one_units)).
Proof.
  intros Hn. unfold float_of_int.
  pose proof (int_representable n Hn) as Hr.
  destruct (round_to_float_bounded (n * one_units) 1 (n * one_units)) as [E _];
    auto using int_units_finite; try lia.
  { pose proof one_units_pos. nia. }
  rewrite E. replace (n * one_units) with (n * one_units * 1) at 1 by lia.
  rewrite round_units_exact; auto. lia.
Qed.

(** Below a finite float [b], [float(n)] is finite and at most [b]. *)
Lemma float_of_int_bounded n b :
  0 <= n -> representable b -> b < 2 ^ (emax - emin) -> n * one_units <= b ->
  float_of_int n = OK (Finite (round_units (n * one_units) 1))
  /\ 0 <= round_units (n * one_units) 1 <= b.
Proof.
  intros Hn Hb Hlt Hle. unfold float_of_int.
  pose proof one_units_pos.
  destruct (round_to_float_bounded (n * one_units) 1 b) as [E Hk]; auto; try lia.
  rewrite E. auto.
Qed.

Lemma int_of_float_floor k :
  0 <= k -> int_of_float (Finite k) = OK (k / one_units).
Proof.
  intros Hk. unfold int_of_float. f_equal. apply Z.quot_div_nonneg; auto using one_units_pos.
Qed.

(** *** Multiplication by a ratio in [0, 1] and quotients of ordered floats *)

Lemma fmul_ratio a b :
  representable a -> a < 2 ^ (emax - emin) -> 0 <= b <= one_units ->
  exists k, fmul (Finite a) (Finite b) = Finite k /\ 0 <= k <= a.
Proof.
  intros Ha Hlt Hb. pose proof (representable_nonneg a Ha). pose proof one_units_pos.
  destruct (round_to_float_bounded (a * b) one_units a) as [E Hk]; auto; try nia.
  exists (round_units (a * b) one_units). simpl. auto.
Qed.

Lemma fdiv_ordered a b :
  0 <= a <= b -> 0 < b ->
  exists k, fdiv (Finite a) (Finite b) = OK (Finite k) /\ 0 <= k <= one_units.
Proof.
  intros Ha Hb. pose proof one_units_pos.
  destruct (round_to_float_bounded (a * one_units) b one_units) as [E Hk];
    auto using one_units_representable, one_units_finite; try nia.
  exists (round_units (a * one_units) b).
  unfold fdiv. destruct b as [|p|p]; try lia.
  replace (Z.sgn (Z.pos p) * a * one_units) with (a * one_units) by (simpl; lia).
  rewrite Z.abs_eq by lia. rewrite E. auto.
Qed.

Lemma round_to_float_zero d : 0 < d -> round_to_float 0 d = Finite 0.
Proof.
  intros Hd.
  destruct (round_to_float_bounded 0 d 0) as [E Hk];
    auto using zero_representable; try lia.
  { apply pow2_pos. unfold emin, emax, prec. lia. }
  rewrite E. f_equal. lia.
Qed.

Lemma fdiv_zero b :
  0 < b -> fdiv (Finite 0) (Finite b) = OK (Finite 0).
Proof.
  intros Hb. unfold fdiv. destruct b as [|p|p]; try lia.
  rewrite Z.mul_0_r, Z.mul_0_l. rewrite round_to_float_zero by lia. reflexivity.
Qed.

End F64Facts.

(** *** The model computes what the kernel's binary64 primitives compute *)

Module F64Agreement.
Import PrimFloat.
Local Open Scope Z_scope.

(** [0.7 * 10] rounds up to [7.0]. *)
Example fmul_rounds_to_seven :
  F64.fmul (F64.of_prim 0x1.6666666666666p-1) (F64.of_prim 10)
  = F64.of_prim (0x1.6666666666666p-1 * 10)
  /\ F64.of_prim (0x1.6666666666666p-1 * 10) = F64.Finite (7 * F64.one_units).
Proof. split; vm_compute; reflexivity. Qed.

(** [100 * 0.1] is [10.0]. *)
Example fmul_tenth_of_hundred :
  F64.fmul (F64.of_prim 100) (F64.of_prim 0x1.999999999999ap-4)
  = F64.of_prim (100 * 0x1.999999999999ap-4)
  /\ F64.of_prim (100 * 0x1.999999999999ap-4) = F64.Finite (10 * F64.one_units).
Proof. split; vm_compute; reflexivity. Qed.

Example fdiv_third :
  F64.fdiv (F64.of_prim 1) (F64.of_prim 3) = OK (F64.of_prim (1 / 3)).
Proof. vm_compute. reflexivity. Qed.

Example fdiv_half :
  F64.fdiv (F64.of_prim 5) (F64.of_prim 10) = OK (F64.of_prim 0x1p-1)
  /\ F64.of_prim 0x1p-1 = F64.Finite (F64.one_units / 2).
Proof. split; vm_compute; reflexivity. Qed.

(** The smallest subnormal halves to zero (a tie, to even). *)
Example fmul_underflow :
  F64.fmul (F64.of_prim 0x1p-1074) (F64.of_prim 0x1p-1)
  = F64.of_prim (0x1p-1074 * 0x1p-1)
  /\ F64.of_prim (0x1p-1074 * 0x1p-1) = F64.zero.
Proof. split; vm_compute; reflexivity. Qed.

Example fmul_overflow :
  F64.fmul (F64.of_prim 0x1.fffffffffffffp+1023) (F64.of_prim 2)
  = F64.of_prim (0x1.fffffffffffffp+1023 * 2)
  /\ F64.of_prim (0x1.fffffffffffffp+1023 * 2) = F64.Infinity false.
Proof. split; vm_compute; reflexivity. Qed.

Example fmul_negative :
  F64.fmul (F64.of_prim (-0x1.6666666666666p-1)) (F64.of_prim 0x1.999999999999ap-4)
  = F64.of_prim (-0x1.6666666666666p-1 * 0x1.999999999999ap-4).
Proof. vm_compute. reflexivity. Qed.

(** [float(2^53 + 3)] is [2^53 + 4], also by the Standard Library's
    specification of the conversion. *)
Example float_of_int_rounds_up :
  F64.float_of_int (2 ^ 53 + 3) = OK (F64.Finite ((2 ^ 53 + 4) * F64.one_units))
  /\ F64.of_spec (SpecFloat.binary_normalize F64.prec F64.emax (2 ^ 53 + 3) 0 false)
     = F64.Finite ((2 ^ 53 + 4) * F64.one_units)
  /\ F64.to_spec (F64.Finite ((2 ^ 53 + 4) * F64.one_units))
     = SpecFloat.binary_normalize F64.prec F64.emax (2 ^ 53 + 3) 0 false.
Proof. repeat split; vm_compute; reflexivity. Qed.

Example float_of_int_too_large :
  F64.float_of_int (2 ^ 1024) = Raise OverflowError.
Proof. vm_compute. reflexivity. Qed.

Example int_of_float_truncates :
  F64.int_of_float (F64.of_prim (-0x1.8p+1)) = OK (-3).
Proof. vm_compute. reflexivity. Qed.

End F64Agreement.

(** ** [torch.argmax] on rows of finite logits *)

Lemma greater_or_nan_finite a b :
  greater_or_nan (F64.Finite a) (F64.Finite b) = negb (a <=? b)%Z.
Proof. reflexivity. Qed.

Lemma argmax_from_spec (row pre : list F64.float) (best : F64.float) (best_i : nat) :
  Forall F64.is_finite (pre ++ row) ->
  pre !! best_i = Some best ->
  (forall y, y ∈ pre -> F64.fleb y best = true) ->
  (forall i y, (i < best_i)%nat -> pre !! i = Some y -> F64.fleb best y = false) ->
  exists x,
    (pre ++ row) !! argmax_from row (length pre) best best_i = Some x
    /\ (forall y, y ∈ pre ++ row -> F64.fleb y x = true)
    /\ (forall i y, (i < argmax_from row (length pre) best best_i)%nat ->
          (pre ++ row) !! i = Some y -> F64.fleb x y = false).
Proof.
  revert pre best best_i. induction row as [|x row IH]; intros pre best best_i Hf Hb Hmax Hfirst.
  - simpl. rewrite app_nil_r. exists best. auto.
  - pose proof (lookup_lt_Some _ _ _ Hb) as Hlt.
    assert (Hfb : F64.is_finite best).
    { rewrite Forall_forall in Hf. apply Hf. apply elem_of_app. left.
      eapply list_elem_of_lookup_2; eauto. }
    assert (Hfx : F64.is_finite x).
    { rewrite Forall_forall in Hf. apply Hf. apply elem_of_app. right. left. }
    destruct Hfb as [kb ->], Hfx as [kx ->].
    assert (Hfin : forall y, y ∈ pre -> F64.is_finite y).
    { intros y Hy. rewrite Forall_forall in Hf. apply Hf. apply elem_of_app. auto. }
    replace (pre ++ F64.Finite kx :: row) with ((pre ++ [F64.Finite kx]) ++ row)
      in * by (rewrite <- app_assoc; reflexivity).
    cbn [argmax_from]. rewrite greater_or_nan_finite.
    replace (S (length pre)) with (length (pre ++ [F64.Finite kx]))
      by (rewrite length_app; simpl; lia).
    destruct (Z.leb_spec kx kb) as [Hle|Hgt]; simpl.
    + apply IH; auto.
      * rewrite lookup_app_l by lia. exact Hb.
      * intros y Hy. apply elem_of_app in Hy as [Hy|Hy]; [auto|].
        apply list_elem_of_singleton in Hy as ->. simpl. apply Z.leb_le. lia.
      * intros i y Hi Hy. rewrite lookup_app_l in Hy by lia. eauto.
    + apply IH; auto.
      * apply list_lookup_middle. reflexivity.
      * intros y Hy. apply elem_of_app in Hy as [Hy|Hy].
        -- destruct (Hfin y Hy) as [ky ->]. specialize (Hmax _ Hy). simpl in *.
           apply Z.leb_le in Hmax. apply Z.leb_le. lia.
        -- apply list_elem_of_singleton in Hy as ->. simpl. apply Z.leb_le. lia.
      * intros i y Hi Hy. rewrite lookup_app_l in Hy by lia.
        assert (Hin : y ∈ pre) by (eapply list_elem_of_lookup_2; eauto).
        destruct (Hfin y Hin) as [ky ->]. specialize (Hmax _ Hin). simpl in *.
        apply Z.leb_le in Hmax. apply Z.leb_gt. lia.
Qed.

Lemma argmax_spec (row : list F64.float) :
  row <> [] -> Forall F64.is_finite row ->
  exists x,
    row !! Z.to_nat (argmax row) = Some x
    /\ (forall y, y ∈ row -> F64.fleb y x = true)
    /\ (forall i y, (i < Z.to_nat (argmax row))%nat -> row !! i = Some y ->
          F64.fleb x y = false).
Proof.
  destruct row as [|x row]; [congruence|]. intros _ Hf.
  unfold argmax. rewrite Nat2Z.id.
  assert (Hx : F64.is_finite x) by (inversion Hf; auto). destruct Hx as [kx ->].
  apply (argmax_from_spec row [F64.Finite kx] (F64.Finite kx) 0); auto.
  - intros y Hy. apply list_elem_of_singleton in Hy as ->. simpl. apply Z.leb_le. lia.
  - intros i y Hi. lia.
Qed.

(** ** The learning-rate schedule of [configure_optimizers] *)

Module Schedule.
Import F64 F64Facts.
Local Open Scope Z_scope.

(** What a successful run of lines 135-138 has computed. *)
Lemma schedule_state_inv self s :
  compute_schedule_state self = OK s ->
  exists a k,
    float_of_int (estimated_stepping_batches self) = OK (Finite a)
    /\ fmul (Finite a) (warmup_ratio self) = Finite k
    /\ Z.abs k < 2 ^ (emax - emin)
    /\ (0 < k -> representable k)
    /\ s = {| total_steps := estimated_stepping_batches self;
              warmup_steps := Z.quot k one_units;
              t_max := estimated_stepping_batches self - Z.quot k one_units;
              eta_min := fmul (lr self) (eta_min_ratio self) |}.
Proof.
  unfold compute_schedule_state, mbind, result_bind.
  destruct (float_of_int (estimated_stepping_batches self)) as [total|] eqn:Ht; [|discriminate].
  assert (exists a, total = Finite a) as [a ->].
  { unfold float_of_int in Ht. destruct (round_to_float _ _); inv_result Ht. eauto. }
  destruct (fmul (Finite a) (warmup_ratio self)) as [k| |] eqn:Hm; simpl; try discriminate.
  intros E. inv_result E. exists a, k. repeat split; auto.
  - destruct (warmup_ratio self) as [b| |]; simpl in Hm.
    + apply round_to_float_finite in Hm. tauto.
    + destruct (a =? 0); discriminate.
    + discriminate.
  - intros Hk. destruct (warmup_ratio self) as [b| |]; simpl in Hm.
    + apply round_to_float_finite in Hm as [-> _].
      destruct (Z_le_gt_dec 0 (a * b)).
      * apply round_units_representable; auto using one_units_pos.
      * pose proof (round_units_nonpos (a * b) one_units one_units_pos). lia.
    + destruct (a =? 0); discriminate.
    + discriminate.
Qed.

(** A positive [warmup_steps] converts to a finite float, at least 1.0. *)
Lemma warmup_steps_float self s :
  compute_schedule_state self = OK s -> 1 <= warmup_steps s ->
  exists kw,
    float_of_int (Z.max 1 (warmup_steps s)) = OK (Finite kw)
    /\ kw = round_units (warmup_steps s * one_units) 1
    /\ one_units <= kw < 2 ^ (emax - emin).
Proof.
  intros Hs Hw. destruct (schedule_state_inv self s Hs) as (a & k & _ & _ & Hfin & Hrep & ->).
  simpl in *. pose proof one_units_pos as HU.
  assert (Hk : 0 < k).
  { destruct (Z_le_gt_dec k 0); [|lia].
    pose proof (Z.quot_opp_l k one_units ltac:(lia)).
    pose proof (Z.quot_pos (- k) one_units ltac:(lia) HU). lia. }
  assert (Hle : k ÷ one_units * one_units <= k).
  { pose proof (Z.quot_rem' k one_units). pose proof (Z.rem_nonneg k one_units ltac:(lia) ltac:(lia)). lia. }
  rewrite Z.max_r by lia.
  destruct (float_of_int_bounded (k ÷ one_units) k) as [E Hb]; auto; try lia.
  exists (round_units (k ÷ one_units * one_units) 1). repeat split; auto; try lia.
  apply round_units_ge; auto using one_units_representable; try lia. nia.
Qed.

(** Inside the warmup phase [lr_lambda] is the float quotient of the
    converted step by the converted [max(1, warmup_steps)]. *)
Lemma lr_lambda_warmup w kw cs :
  float_of_int (Z.max 1 w) = OK (Finite kw) ->
  kw = round_units (w * one_units) 1 -> one_units <= kw < 2 ^ (emax - emin) ->
  0 <= cs < w ->
  exists ka k,
    float_of_int cs = OK (Finite ka)
    /\ fdiv (Finite ka) (Finite kw) = OK (Finite k)
    /\ lr_lambda w cs = OK (Finite k)
    /\ 0 <= ka <= kw /\ 0 <= k <= one_units.
Proof.
  intros Hw Hkw Hb Hcs. pose proof one_units_pos as HU.
  assert (Hka : 0 <= round_units (cs * one_units) 1 <= kw).
  { split; [apply round_units_nonneg; lia|].
    subst kw. apply round_units_mono; nia. }
  assert (Ea : float_of_int cs = OK (Finite (round_units (cs * one_units) 1))).
  { unfold float_of_int, round_to_float.
    destruct (Z.ltb_spec (Z.abs (round_units (cs * one_units) 1)) (2 ^ (emax - emin))); [auto|lia]. }
  destruct (fdiv_ordered (round_units (cs * one_units) 1) kw) as (k & Ek & Hk); try lia.
  exists (round_units (cs * one_units) 1), k. repeat split; auto; try lia.
  unfold lr_lambda. destruct (Z.ltb_spec cs w); [|lia].
  rewrite Ea, Hw. exact Ek.
Qed.

Lemma lr_lambda_after w cs : w <= cs -> lr_lambda w cs = OK one.
Proof. intros H. unfold lr_lambda. destruct (Z.ltb_spec cs w); [lia|reflexivity]. Qed.

(** The schedule that [configure_optimizers] returns once the optimizer
    is built. *)
Lemma configure_optimizers_inv construct self s :
  construct (select_optimizer self) = OK tt ->
  compute_schedule_state self = OK s ->
  configure_optimizers construct self =
    OK {| config_optimizer := select_optimizer self;
          config_lr_scheduler :=
            {| config_scheduler :=
                 SequentialLR (select_optimizer self)
                   [LambdaLR (select_optimizer self) (lr_lambda (warmup_steps s));
                    CosineAnnealingLR (select_optimizer self) (t_max s) (eta_min s)]
                   [warmup_steps s];
               config_interval := interval self |} |}.
Proof.
  intros Hc Hs. unfold configure_optimizers, mbind, result_bind.
  cbv zeta. rewrite Hc, Hs. reflexivity.
Qed.

(** A result of [configure_optimizers] comes from an accepted constructor
    call and a schedule state. *)
Lemma configure_optimizers_ok construct self cfg :
  configure_optimizers construct self = OK cfg ->
  construct (select_optimizer self) = OK tt
  /\ exists s,
       compute_schedule_state self = OK s
       /\ config_optimizer cfg = select_optimizer self
       /\ config_scheduler (config_lr_scheduler cfg)
          = SequentialLR (select_optimizer self)
              [LambdaLR (select_optimizer self) (lr_lambda (warmup_steps s));
               CosineAnnealingLR (select_optimizer self) (t_max s) (eta_min s)]
              [warmup_steps s].
Proof.
  unfold configure_optimizers, mbind, result_bind. cbv zeta.
  destruct (construct (select_optimizer self)) as [[]|x]; [|discriminate].
  destruct (compute_schedule_state self) as [s|x]; [|discriminate].
  intros E. inv_result E. split; [reflexivity|]. exists s. auto.
Qed.


Lemma bisect_right_singleton (m x : Z) :
  bisect_right [m] x = if Z.leb m x then 1%nat else 0%nat.
Proof.
  unfold bisect_right. rewrite filter_cons, filter_nil.
  destruct (decide (m <= x)), (Z.leb_spec m x); simpl; auto; lia.
Qed.

Lemma sequential_at_warmup o1 o2 f T e w step :
  step < w ->
  sequential_at [LambdaLR o1 f; CosineAnnealingLR o2 T e] [w] step
  = Some (Multiplier (f step)).
Proof.
  intros H. unfold sequential_at. rewrite bisect_right_singleton.
  destruct (Z.leb_spec w step); [lia|]. simpl. rewrite Z.sub_0_r. reflexivity.
Qed.

Lemma sequential_at_anneal o1 o2 f T e w step :
  w <= step ->
  sequential_at [LambdaLR o1 f; CosineAnnealingLR o2 T e] [w] step
  = Some (Cosine T e (step - w)).
Proof.
  intros H. unfold sequential_at. rewrite bisect_right_singleton.
  destruct (Z.leb_spec w step); [|lia]. reflexivity.
Qed.

(** Scaling numerator and denominator does not change the rounding. *)
Lemma round_half_even_scale n d c :
  0 < d -> 0 < c -> round_half_even (n * c) (d * c) = round_half_even n d.
Proof.
  intros Hd Hc. unfold round_half_even.
  rewrite Z.div_mul_cancel_r by lia.
  rewrite Z.mul_mod_distr_r by lia.
  replace (2 * (n mod d * c)) with (2 * (n mod d) * c) by lia.
  rewrite <- Zmult_compare_compat_r by lia. reflexivity.
Qed.

Lemma round_to_float_scale n d c :
  0 < d -> 0 < c -> round_to_float (n * c) (d * c) = round_to_float n d.
Proof.
  intros Hd Hc.
  assert (E : round_units (n * c) (d * c) = round_units n d).
  { unfold round_units, binade_shift.
    rewrite Z.abs_mul, (Z.abs_eq c) by lia.
    rewrite Z.div_mul_cancel_r by lia.
    set (sh := Z.max 0 _).
    replace (d * c * 2 ^ sh) with (d * 2 ^ sh * c) by lia.
    rewrite round_half_even_scale; auto.
    pose proof (pow2_pos sh ltac:(unfold sh; lia)). nia. }
  unfold round_to_float. rewrite E. reflexivity.
Qed.

(** While [warmup_steps] has at most 53 bits the multiplier is the float
    nearest to the exact quotient [current_step / max(1, warmup_steps)]. *)
Lemma lr_lambda_correctly_rounded w cs :
  0 <= cs < w -> w <= 2 ^ prec ->
  lr_lambda w cs = OK (round_to_float (cs * one_units) (Z.max 1 w)).
Proof.
  intros Hcs Hw. pose proof one_units_pos as HU.
  unfold lr_lambda. destruct (Z.ltb_spec cs w); [|lia].
  rewrite Z.max_r by lia.
  rewrite !float_of_int_exact by lia. simpl.
  unfold fdiv. destruct (w * one_units) as [|p|p] eqn:E; try nia.
  rewrite <- E. rewrite Z.abs_eq by nia.
  replace (Z.sgn (w * one_units)) with 1 by (symmetry; apply Z.sgn_pos; nia).
  rewrite Z.mul_1_l. rewrite round_to_float_scale by lia. reflexivity.
Qed.

(** C1: in the schedule that [configure_optimizers] returns, for every
    step [0 <= step < warmup_steps] the warmup scheduler is in charge and
    its multiplier is the float quotient [step / max(1, warmup_steps)]
    (while [warmup_steps] has at most 53 bits: the float nearest the
    exact quotient); from step [warmup_steps] on the cosine scheduler is
    in charge, counting its steps from [warmup_steps]; at every step
    exactly one of the two phases determines the value. *)
Theorem C1_linear_warmup_then_cosine construct self cfg :
  configure_optimizers construct self = OK cfg ->
  exists s,
    compute_schedule_state self = OK s
    /\ (forall step, 0 <= step < warmup_steps s ->
          exists a b m,
            float_of_int step = OK a
            /\ float_of_int (Z.max 1 (warmup_steps s)) = OK b
            /\ fdiv a b = OK m
            /\ schedule_at (config_scheduler (config_lr_scheduler cfg)) step
               = Some (Multiplier (OK m))
            /\ (warmup_steps s <= 2 ^ prec ->
                m = round_to_float (step * one_units) (Z.max 1 (warmup_steps s))))
    /\ (forall step, warmup_steps s <= step ->
          schedule_at (config_scheduler (config_lr_scheduler cfg)) step
          = Some (Cosine (t_max s) (eta_min s) (step - warmup_steps s)))
    /\ (forall step,
          exists v,
            schedule_at (config_scheduler (config_lr_scheduler cfg)) step = Some v
            /\ (phase_of v = WARMUP <-> step < warmup_steps s)
            /\ (phase_of v = ANNEAL <-> warmup_steps s <= step)).
Proof.
  intros Hcfg.
  destruct (configure_optimizers_ok construct self cfg Hcfg) as (_ & s & Hs & _ & Hsched).
  exists s. split; [exact Hs|]. rewrite Hsched. simpl.
  split; [|split].
  - intros step Hstep.
    destruct (warmup_steps_float self s Hs ltac:(lia)) as (kw & Ew & Hkw & Hb).
    destruct (lr_lambda_warmup _ kw step Ew Hkw Hb Hstep) as (ka & k & Ea & Ed & El & _ & _).
    exists (Finite ka), (Finite kw), (Finite k).
    split; [exact Ea|]. split; [exact Ew|]. split; [exact Ed|]. split.
    + rewrite sequential_at_warmup by lia. rewrite El. reflexivity.
    + intros H53. pose proof (lr_lambda_correctly_rounded _ step Hstep H53) as Er.
      rewrite El in Er. inversion Er. reflexivity.
  - intros step Hstep. apply sequential_at_anneal. exact Hstep.
  - intros step. destruct (Z_lt_le_dec step (warmup_steps s)) as [H|H].
    + rewrite sequential_at_warmup by lia. eexists. split; [reflexivity|].
      simpl. split; split; intros; auto; try lia; discriminate.
    + rewrite sequential_at_anneal by lia. eexists. split; [reflexivity|].
      simpl. split; split; intros; auto; try lia; discriminate.
Qed.

Lemma fixture_configured :
  exists cfg, configure_optimizers Fixture.construct Fixture.self = OK cfg.
Proof.
  eexists. apply (configure_optimizers_inv _ _ Fixture.schedule); vm_compute; reflexivity.
Defined.

(** At 100 steps with a warmup ratio of 0.1 the multiplier at step 5 is
    0.5 and the cosine phase starts at step 10. *)
Lemma C1_linear_warmup_then_cosine_witness :
  exists cfg,
    configure_optimizers Fixture.construct Fixture.self = OK cfg
    /\ schedule_at (config_scheduler (config_lr_scheduler cfg)) 5
       = Some (Multiplier (OK (Finite (one_units / 2))))
    /\ schedule_at (config_scheduler (config_lr_scheduler cfg)) 10
       = Some (Cosine 90 (eta_min Fixture.schedule) 0).
Proof.
  destruct fixture_configured as (cfg & Hc).
  exists cfg. split; [exact Hc|].
  destruct (C1_linear_warmup_then_cosine Fixture.construct Fixture.self cfg Hc)
    as (s & Hs & Hw & Ha & _).
  assert (E : OK s = OK Fixture.schedule) by (rewrite <- Hs; vm_compute; reflexivity).
  inversion E; subst s. split.
  - destruct (Hw 5 ltac:(simpl; lia)) as (a & b & m & _ & _ & _ & E5 & Hr).
    rewrite E5, Hr by (vm_compute; discriminate). vm_compute. reflexivity.
  - apply (Ha 10). simpl. lia.
Defined.

Lemma ratio_in_unit_interval r :
  fleb zero r = true -> fleb r one = true ->
  exists b, r = Finite b /\ 0 <= b <= one_units.
Proof.
  destruct r as [b|[]|]; simpl; try discriminate.
  intros H0 H1. exists b. split; auto.
  apply Z.leb_le in H0, H1. lia.
Qed.

(** C2 (amended): for [1 <= total_steps <= 2^53] and a float
    [warmup_ratio] in [0, 1], [configure_optimizers] computes
    [warmup_steps = floor(total_steps * warmup_ratio)] (the float
    product), [t_max = total_steps - warmup_steps] and
    [eta_min = lr * eta_min_ratio], with [0 <= warmup_steps <= total_steps];
    it returns, once the optimizer is built, the schedule made of them. *)
Theorem C2_schedule_state_53_bits construct self :
  1 <= estimated_stepping_batches self <= 2 ^ prec ->
  fleb zero (warmup_ratio self) = true ->
  fleb (warmup_ratio self) one = true ->
  exists s total,
    compute_schedule_state self = OK s
    /\ float_of_int (estimated_stepping_batches self) = OK total
    /\ floor (fmul total (warmup_ratio self)) = Some (warmup_steps s)
    /\ total_steps s = estimated_stepping_batches self
    /\ t_max s = total_steps s - warmup_steps s
    /\ eta_min s = fmul (lr self) (eta_min_ratio self)
    /\ 0 <= warmup_steps s <= total_steps s
    /\ (construct (select_optimizer self) = OK tt ->
        exists cfg, configure_optimizers construct self = OK cfg)
    /\ (forall cfg, configure_optimizers construct self = OK cfg ->
        config_scheduler (config_lr_scheduler cfg)
        = SequentialLR (config_optimizer cfg)
            [LambdaLR (config_optimizer cfg) (lr_lambda (warmup_steps s));
             CosineAnnealingLR (config_optimizer cfg) (t_max s) (eta_min s)]
            [warmup_steps s]).
Proof.
  intros HT H0 H1. pose proof one_units_pos as HU.
  destruct (ratio_in_unit_interval _ H0 H1) as (b & Hr & Hb).
  set (T := estimated_stepping_batches self) in *.
  pose proof (float_of_int_exact T ltac:(lia)) as ET.
  destruct (fmul_ratio (T * one_units) b) as (k & Ek & Hk);
    auto using int_representable, int_units_finite; try lia.
  { apply int_representable. lia. }
  { apply int_units_finite. lia. }
  assert (Hq : 0 <= k / one_units <= T).
  { split; [apply Z.div_pos; lia|].
    apply Z.div_le_upper_bound; lia. }
  assert (Hs : compute_schedule_state self
               = OK {| total_steps := T; warmup_steps := k / one_units;
                       t_max := T - k / one_units;
                       eta_min := fmul (lr self) (eta_min_ratio self) |}).
  { unfold compute_schedule_state, mbind, result_bind. fold T.
    rewrite ET, Hr, Ek, int_of_float_floor by lia. reflexivity. }
  eexists _, (Finite (T * one_units)).
  split; [exact Hs|]. split; [exact ET|].
  rewrite Hr, Ek. simpl.
  split; [reflexivity|]. split; [reflexivity|]. split; [reflexivity|].
  split; [reflexivity|]. split; [lia|]. split.
  - intros Hc. eexists. apply (configure_optimizers_inv construct self _ Hc Hs).
  - intros cfg Hcfg.
    destruct (configure_optimizers_ok construct self cfg Hcfg) as (_ & s' & Hs' & Ho & Hsched).
    rewrite Hs in Hs'. inv_result Hs'. rewrite Ho, Hsched. reflexivity.
Qed.

Lemma C2_schedule_state_53_bits_witness :
  1 <= estimated_stepping_batches Fixture.self <= 2 ^ prec
  /\ fleb zero (warmup_ratio Fixture.self) = true
  /\ fleb (warmup_ratio Fixture.self) one = true
  /\ exists s,
       compute_schedule_state Fixture.self = OK s
       /\ warmup_steps s = 10 /\ t_max s = 90.
Proof.
  assert (HT : 1 <= estimated_stepping_batches Fixture.self <= 2 ^ prec)
    by (vm_compute; split; discriminate).
  assert (H0 : fleb zero (warmup_ratio Fixture.self) = true) by (vm_compute; reflexivity).
  assert (H1 : fleb (warmup_ratio Fixture.self) one = true) by (vm_compute; reflexivity).
  repeat split; try assumption; try apply HT.
  destruct (C2_schedule_state_53_bits Fixture.construct Fixture.self HT H0 H1)
    as (s & total & Hs & _ & _ & _ & Ht & _).
  exists s. split; [exact Hs|].
  assert (E : OK s = OK Fixture.schedule) by (rewrite <- Hs; vm_compute; reflexivity).
  inversion E. split; reflexivity.
Defined.

(** C2 fails as stated: with [total_steps = 2^53 + 3] and
    [warmup_ratio = 1.0] the conversion [float(total_steps)] rounds up to
    [2^53 + 4], so [warmup_steps] exceeds [total_steps]. *)
Lemma C2_warmup_exceeds_total :
  1 <= estimated_stepping_batches Fixture.long_run
  /\ fleb zero (warmup_ratio Fixture.long_run) = true
  /\ fleb (warmup_ratio Fixture.long_run) one = true
  /\ exists s,
       compute_schedule_state Fixture.long_run = OK s
       /\ total_steps s = 2 ^ 53 + 3
       /\ warmup_steps s = 2 ^ 53 + 4
       /\ ~ warmup_steps s <= total_steps s.
Proof.
  split; [vm_compute; discriminate|].
  split; [vm_compute; reflexivity|].
  split; [vm_compute; reflexivity|].
  eexists. split; [vm_compute; reflexivity|].
  split; [reflexivity|]. split; [reflexivity|].
  vm_compute. intros H. apply H. reflexivity.
Qed.

(** C3 fails as stated: with [warmup_steps = 10] the multiplier at step 0
    is [0.0], not [1 / max(1, warmup_steps)]. *)
Lemma C3_step_zero_is_not_reciprocal :
  compute_schedule_state Fixture.self = OK Fixture.schedule
  /\ 1 <= warmup_steps Fixture.schedule
  /\ lr_lambda (warmup_steps Fixture.schedule) 0 = OK zero
  /\ lr_lambda (warmup_steps Fixture.schedule) 0
     <> (a ← float_of_int 1;
         b ← float_of_int (Z.max 1 (warmup_steps Fixture.schedule));
         fdiv a b).
Proof.
  split; [vm_compute; reflexivity|].
  split; [vm_compute; discriminate|].
  split; [vm_compute; reflexivity|].
  vm_compute. discriminate.
Qed.

Lemma cosine_anneal_start base_lr eta T :
  cosine_anneal base_lr eta T 0 = base_lr.
Proof.
  unfold cosine_anneal, Rdiv. rewrite Rmult_0_r, Rmult_0_l, cos_0. lra.
Qed.

(** C3 (amended): the multiplier at step 0 is [0.0], that is
    [0 / max(1, warmup_steps)], when [warmup_steps >= 1], and exactly
    [1.0] when [warmup_steps <= 0]; at step [warmup_steps] the schedule
    that [configure_optimizers] returns takes the value of the cosine phase
    at its first step, which is the full [lr] whenever [lr] and [eta_min]
    are finite and the cosine phase has steps ([t_max] is not 0). *)
Theorem C3_schedule_endpoints construct self cfg :
  configure_optimizers construct self = OK cfg ->
  exists s v,
    compute_schedule_state self = OK s
    /\ (1 <= warmup_steps s -> lr_lambda (warmup_steps s) 0 = OK zero)
    /\ (warmup_steps s <= 0 -> lr_lambda (warmup_steps s) 0 = OK one)
    /\ schedule_at (config_scheduler (config_lr_scheduler cfg)) (warmup_steps s)
       = Some v
    /\ v = Cosine (t_max s) (eta_min s) 0
    /\ (is_finite (lr self) -> is_finite (eta_min s) -> t_max s <> 0 ->
        exists x, F2R (lr self) = Some x /\ learning_rate (lr self) v = Some x).
Proof.
  intros Hcfg.
  destruct (configure_optimizers_ok construct self cfg Hcfg) as (_ & s & Hs & _ & Hsched).
  exists s, (Cosine (t_max s) (eta_min s) 0).
  split; [exact Hs|]. split; [|split; [|split; [|split]]].
  - intros Hw.
    destruct (warmup_steps_float self s Hs Hw) as (kw & Ew & _ & Hb).
    unfold lr_lambda. destruct (Z.ltb_spec 0 (warmup_steps s)); [|lia].
    rewrite Ew, (float_of_int_exact 0) by (unfold prec; lia). simpl.
    apply fdiv_zero. pose proof one_units_pos. lia.
  - intros Hw. apply lr_lambda_after. exact Hw.
  - rewrite Hsched. simpl.
    rewrite sequential_at_anneal by lia. rewrite Z.sub_diag. reflexivity.
  - reflexivity.
  - intros [a Ha] [b Hb] HT. rewrite Ha, Hb.
    eexists. split; [reflexivity|]. unfold learning_rate.
    destruct (Z.eqb_spec (t_max s) 0) as [E|_]; [contradiction|].
    unfold F2R, mbind, option_bind. rewrite cosine_anneal_start. reflexivity.
Qed.

Lemma C3_schedule_endpoints_witness :
  exists cfg x,
    configure_optimizers Fixture.construct Fixture.self = OK cfg
    /\ lr_lambda 10 0 = OK zero
    /\ schedule_at (config_scheduler (config_lr_scheduler cfg)) 10
       = Some (Cosine 90 (eta_min Fixture.schedule) 0)
    /\ F2R (lr Fixture.self) = Some x
    /\ learning_rate (lr Fixture.self) (Cosine 90 (eta_min Fixture.schedule) 0)
       = Some x.
Proof.
  destruct fixture_configured as (cfg & Hc).
  destruct (C3_schedule_endpoints Fixture.construct Fixture.self cfg Hc)
    as (s & v & Hs & H1 & _ & Ha & Hv & Hlr).
  assert (E : OK s = OK Fixture.schedule) by (rewrite <- Hs; vm_compute; reflexivity).
  inversion E; subst s. subst v.
  destruct Hlr as (x & Hx & Hl).
  - eexists. vm_compute. reflexivity.
  - eexists. vm_compute. reflexivity.
  - simpl. discriminate.
  - exists cfg, x. split; [exact Hc|]. split; [apply H1; simpl; lia|].
    split; [exact Ha|]. split; [exact Hx|exact Hl].
Defined.

(** C10: the warmup multiplier [lr_lambda] of [configure_optimizers] is
    bounded: at every [current_step >= 0] it returns a float in [0, 1],
    and exactly [1.0] at every [current_step >= warmup_steps]. *)
Theorem C10_lr_lambda_bounded self s current_step :
  compute_schedule_state self = OK s ->
  0 <= current_step ->
  exists v,
    lr_lambda (warmup_steps s) current_step = OK v
    /\ fleb zero v = true /\ fleb v one = true
    /\ (warmup_steps s <= current_step -> v = one).
Proof.
  intros Hs Hc. pose proof one_units_pos as HU.
  destruct (Z_lt_le_dec current_step (warmup_steps s)) as [H|H].
  - destruct (warmup_steps_float self s Hs ltac:(lia)) as (kw & Ew & Hkw & Hb).
    destruct (lr_lambda_warmup _ kw current_step Ew Hkw Hb ltac:(lia))
      as (ka & k & _ & _ & El & _ & Hk).
    exists (Finite k). split; [exact El|]. simpl.
    repeat split; try (apply Z.leb_le; lia). lia.
  - exists one. split; [apply lr_lambda_after; exact H|]. simpl.
    repeat split; apply Z.leb_le; lia.
Qed.

Lemma C10_lr_lambda_bounded_witness :
  compute_schedule_state Fixture.self = OK Fixture.schedule
  /\ 0 <= 3
  /\ exists v,
       lr_lambda 10 3 = OK v /\ fleb zero v = true /\ fleb v one = true.
Proof.
  assert (Hs : compute_schedule_state Fixture.self = OK Fixture.schedule)
    by (vm_compute; reflexivity).
  split; [exact Hs|]. split; [lia|].
  destruct (C10_lr_lambda_bounded Fixture.self Fixture.schedule 3 Hs ltac:(lia))
    as (v & Hv & H0 & H1 & _).
  exists v. auto.
Defined.

End Schedule.

(** ** Optimizer selection *)




(** ** forward and step *)

Section MethodFacts.
Context (ext : collaborators).

Lemma forward_train e st :
  forward ext e "train" st
  = (OK (model_call ext true e),
     record_call (ModelForward e) (with_training true (record_call ModelTrain st))).
Proof. reflexivity. Qed.

Lemma forward_eval e st :
  forward ext e "eval" st
  = (OK (model_call ext false e),
     record_call (ModelForward e) (with_training false (record_call ModelEval st))).
Proof. reflexivity. Qed.

Lemma forward_invalid e mode st :
  mode <> "train" -> mode <> "eval" ->
  forward ext e mode st = (Raise (InvalidModeError mode), st).
Proof.
  intros Ht He. apply String.eqb_neq in Ht, He.
  unfold forward, mbind, M_bind. rewrite Ht, He. reflexivity.
Qed.

(** C7: [forward] raises [InvalidModeError] (the [ValueError] of line 58)
    for every mode other than ["train"] and ["eval"], leaving the state
    untouched and the model uninvoked; for ["train"] it puts the model in
    training behaviour, for ["eval"] in inference behaviour, then invokes
    the model and returns its output. *)
Theorem C7_forward_modes (e : encoded) (mode : string) (st : state) :
  (mode = "train" ->
   exists st',
     forward ext e mode st = (OK (model_call ext true e), st')
     /\ training st' = true
     /\ calls st' = calls st ++ [ModelTrain; ModelForward e])
  /\ (mode = "eval" ->
      exists st',
        forward ext e mode st = (OK (model_call ext false e), st')
        /\ training st' = false
        /\ calls st' = calls st ++ [ModelEval; ModelForward e])
  /\ (mode <> "train" -> mode <> "eval" ->
      forward ext e mode st = (Raise (InvalidModeError mode), st)
      /\ InvalidModeError mode = ValueError ("Invalid model mode: " +:+ mode)).
Proof.
  split; [|split].
  - intros ->. rewrite forward_train. eexists. split; [reflexivity|].
    simpl. rewrite <- app_assoc. auto.
  - intros ->. rewrite forward_eval. eexists. split; [reflexivity|].
    simpl. rewrite <- app_assoc. auto.
  - intros Ht He. split; [apply forward_invalid; assumption|reflexivity].
Qed.

End MethodFacts.

Lemma C7_forward_modes_witness :
  "predict" <> "train" /\ "predict" <> "eval"
  /\ forward Fixture.ext Fixture.enc "predict" Fixture.st0
     = (Raise (ValueError "Invalid model mode: predict"), Fixture.st0).
Proof.
  assert (Ht : "predict" <> "train") by discriminate.
  assert (He : "predict" <> "eval") by discriminate.
  split; [exact Ht|]. split; [exact He|].
  destruct (C7_forward_modes Fixture.ext Fixture.enc "predict" Fixture.st0) as (_ & _ & H).
  apply (H Ht He).
Defined.

(** ** Epoch-end hooks *)

(** C8: [on_validation_epoch_end] empties the validation accumulator
    and changes nothing else, [on_test_epoch_end] empties the test
    accumulator and changes nothing else, and [on_train_epoch_end]
    changes no state at all. *)
Theorem C8_epoch_end_hooks (st : state) :
  (exists st',
     on_validation_epoch_end st = (OK tt, st')
     /\ val_metrics st' = []
     /\ test_metrics st' = test_metrics st
     /\ training st' = training st /\ peers st' = peers st
     /\ calls st' = calls st)
  /\ (exists st',
        on_test_epoch_end st = (OK tt, st')
        /\ test_metrics st' = []
        /\ val_metrics st' = val_metrics st
        /\ training st' = training st /\ peers st' = peers st
        /\ calls st' = calls st)
  /\ on_train_epoch_end st = (OK tt, st).
Proof.
  split; [|split].
  - eexists. split; [reflexivity|]. simpl. auto.
  - eexists. split; [reflexivity|]. simpl. auto.
  - reflexivity.
Qed.

Lemma lookup_map {A B} (f : A -> B) (l : list A) (i : nat) :
  map f l !! i = f <$> l !! i.
Proof.
  revert i. induction l as [|a l IH]; intros [|i]; simpl; auto.
Qed.

(** ** step *)

Section StepFacts.
Context (ext : collaborators).

Lemma step_train (b : batch) (e : encoded) (label : ids) (index : batch_entry)
    (st : state) :
  b !! "encoded" = Some (BDict e) -> e !! "labels" = Some label ->
  b !! "index" = Some index ->
  step ext b "train" st
  = (OK (list_to_map
           [("loss", VScalar (output_loss (model_call ext true e)));
            ("logit", VLogits (output_logits (model_call ext true e)));
            ("pred", VIds (argmax_last (output_logits (model_call ext true e))));
            ("label", VIds label);
            ("index", VEntry index)]),
     record_call (ModelForward e) (with_training true (record_call ModelTrain st))).
Proof.
  intros Hb He Hi.
  unfold step, mbind, M_bind, getitem.
  rewrite Hb. simpl. rewrite He. simpl. rewrite Hi. reflexivity.
Qed.

Lemma step_eval (b : batch) (e : encoded) (label : ids) (index : batch_entry)
    (st : state) :
  b !! "encoded" = Some (BDict e) -> e !! "labels" = Some label ->
  b !! "index" = Some index ->
  let generation := model_generate ext false e in
  let decode := tokenizer_decode ext true false in
  step ext b "eval" st
  = (OK (list_to_map
           [("loss", VScalar (output_loss (model_call ext false e)));
            ("logit", VLogits (output_logits (model_call ext false e)));
            ("pred", VIds (argmax_last (output_logits (model_call ext false e))));
            ("generation", VIds generation);
            ("decoded_generation", VStrings (map decode generation));
            ("label", VIds label);
            ("decoded_label", VStrings (map decode label));
            ("index", VEntry index)]),
     record_call (BatchDecode label true false)
       (record_call (BatchDecode generation true false)
          (record_call (ModelGenerate e)
             (record_call (ModelForward e)
                (with_training false (record_call ModelEval st)))))).
Proof.
  intros Hb He Hi.
  unfold step, mbind, M_bind, getitem.
  rewrite Hb. simpl. rewrite He. simpl. rewrite Hi. reflexivity.
Qed.

(** C5: on a batch with its [encoded] (holding [labels]) and [index]
    entries, [step(batch, "train")] returns a mapping with exactly the keys
    [loss], [logit], [pred], [label], [index]: [loss] and [logit] are the
    model's output in training mode, [label] and [index] are the batch's,
    and [pred] has, for every row of the last axis of [logit], the position
    of a maximal entry of that row (the first one, for finite logits). The
    model's [train] and forward are called, generation never. *)
Theorem C5_train_step (b : batch) (e : encoded) (label : ids)
    (index : batch_entry) (st : state) :
  b !! "encoded" = Some (BDict e) -> e !! "labels" = Some label ->
  b !! "index" = Some index ->
  exists (r : gmap string value) (st' : state) (pred : ids) (made : list call),
    step ext b "train" st = (OK r, st')
    /\ dom r = ({["loss"; "logit"; "pred"; "label"; "index"]} : gset string)
    /\ r !! "loss" = Some (VScalar (output_loss (model_call ext true e)))
    /\ r !! "logit" = Some (VLogits (output_logits (model_call ext true e)))
    /\ r !! "pred" = Some (VIds pred)
    /\ r !! "label" = Some (VIds label)
    /\ r !! "index" = Some (VEntry index)
    /\ length pred = length (output_logits (model_call ext true e))
    /\ (forall i j seq row,
          output_logits (model_call ext true e) !! i = Some seq ->
          seq !! j = Some row ->
          exists pseq p,
            pred !! i = Some pseq /\ length pseq = length seq
            /\ pseq !! j = Some p /\ (0 <= p)%Z
            /\ (row <> [] -> Forall F64.is_finite row ->
                exists x,
                  row !! Z.to_nat p = Some x
                  /\ (forall y, y ∈ row -> F64.fleb y x = true)
                  /\ (forall k y, (k < Z.to_nat p)%nat -> row !! k = Some y ->
                        F64.fleb x y = false)))
    /\ calls st' = calls st ++ made
    /\ made = [ModelTrain; ModelForward e]
    /\ (forall x, ModelGenerate x ∉ made).
Proof.
  intros Hb He Hi. rewrite (step_train b e label index st Hb He Hi).
  eexists _, _, _, [ModelTrain; ModelForward e].
  split; [reflexivity|]. simpl.
  split; [rewrite !dom_insert_L, dom_empty_L; set_solver|].
  split; [reflexivity|]. split; [reflexivity|].
  split; [reflexivity|]. split; [reflexivity|]. split; [reflexivity|].
  split; [unfold argmax_last; apply length_map|].
  split.
  { intros i j seq row Hs Hr. exists (map argmax seq), (argmax row).
    unfold argmax_last. rewrite !lookup_map, Hs, Hr. simpl.
    split; [reflexivity|]. split; [apply length_map|]. split; [reflexivity|].
    split; [unfold argmax; destruct row; lia|].
    intros Hne Hf. apply argmax_spec; assumption. }
  split; [rewrite <- app_assoc; reflexivity|]. split; [reflexivity|].
  intros x Hx. rewrite !elem_of_cons, elem_of_nil in Hx.
  destruct Hx as [Hx|[Hx|[]]]; discriminate Hx.
Qed.

(** C6: on such a batch, [step(batch, "eval")] additionally invokes the
    model's generation on [encoded], decodes the generated sequences and
    the label sequences with [skip_special_tokens=True] and
    [clean_up_tokenization_spaces=False], and adds [generation],
    [decoded_generation] and [decoded_label] to the result; with one label
    row and one generated sequence per sample both decoded lists have the
    length of the batch. *)
Theorem C6_eval_step (b : batch) (e : encoded) (label : ids)
    (index : batch_entry) (batch_size : nat) (st : state) :
  b !! "encoded" = Some (BDict e) -> e !! "labels" = Some label ->
  b !! "index" = Some index ->
  length label = batch_size ->
  length (model_generate ext false e) = batch_size ->
  exists (r : gmap string value) (st' : state)
         (decoded_generation decoded_label : list string),
    step ext b "eval" st = (OK r, st')
    /\ dom r = ({["loss"; "logit"; "pred"; "generation"; "decoded_generation";
                  "label"; "decoded_label"; "index"]} : gset string)
    /\ r !! "generation" = Some (VIds (model_generate ext false e))
    /\ r !! "decoded_generation" = Some (VStrings decoded_generation)
    /\ r !! "decoded_label" = Some (VStrings decoded_label)
    /\ decoded_generation
       = map (tokenizer_decode ext true false) (model_generate ext false e)
    /\ decoded_label = map (tokenizer_decode ext true false) label
    /\ length decoded_generation = batch_size
    /\ length decoded_label = batch_size
    /\ calls st'
       = calls st ++ [ModelEval; ModelForward e; ModelGenerate e;
                      BatchDecode (model_generate ext false e) true false;
                      BatchDecode label true false].
Proof.
  intros Hb He Hi Hl Hg. rewrite (step_eval b e label index st Hb He Hi).
  eexists _, _, _, _.
  split; [reflexivity|]. simpl.
  split; [rewrite !dom_insert_L, dom_empty_L; set_solver|].
  split; [reflexivity|]. split; [reflexivity|]. split; [reflexivity|].
  split; [reflexivity|]. split; [reflexivity|].
  rewrite !length_map.
  split; [exact Hg|]. split; [exact Hl|].
  rewrite <- !app_assoc. reflexivity.
Qed.

(** [validation_step] records the decoded pairs in the validation
    accumulator and leaves the test accumulator alone; the epoch-end hook
    then empties it. *)
Lemma validation_step_records (b : batch) (e : encoded) (label : ids)
    (index : batch_entry) (batch_idx : Z) (st : state) :
  b !! "encoded" = Some (BDict e) -> e !! "labels" = Some label ->
  b !! "index" = Some index ->
  exists r st',
    validation_step ext b batch_idx st = (OK r, st')
    /\ val_metrics st'
       = val_metrics st
         ++ zip (map (tokenizer_decode ext true false) (model_generate ext false e))
                (map (tokenizer_decode ext true false) label)
    /\ test_metrics st' = test_metrics st.
Proof.
  intros Hb He Hi. unfold validation_step, mbind, M_bind.
  rewrite (step_eval b e label index st Hb He Hi).
  eexists _, _. split; [reflexivity|]. split; reflexivity.
Qed.

Lemma test_step_records (b : batch) (e : encoded) (label : ids)
    (index : batch_entry) (batch_idx : Z) (st : state) :
  b !! "encoded" = Some (BDict e) -> e !! "labels" = Some label ->
  b !! "index" = Some index ->
  exists r st',
    test_step ext b batch_idx st = (OK r, st')
    /\ test_metrics st'
       = test_metrics st
         ++ zip (map (tokenizer_decode ext true false) (model_generate ext false e))
                (map (tokenizer_decode ext true false) label)
    /\ val_metrics st' = val_metrics st.
Proof.
  intros Hb He Hi. unfold test_step, mbind, M_bind.
  rewrite (step_eval b e label index st Hb He Hi).
  eexists _, _. split; [reflexivity|]. split; reflexivity.
Qed.

End StepFacts.

Lemma C5_train_step_witness :
  Fixture.sample !! "encoded" = Some (BDict Fixture.enc)
  /\ Fixture.enc !! "labels" = Some [[4; 15; 7; 0]]%Z
  /\ Fixture.sample !! "index" = Some (BTensor [7%Z])
  /\ exists r st',
       step Fixture.ext Fixture.sample "train" Fixture.st0 = (OK r, st')
       /\ dom r = ({["loss"; "logit"; "pred"; "label"; "index"]} : gset string)
       /\ calls st' = [ModelTrain; ModelForward Fixture.enc]
       /\ exists pred pseq p,
            r !! "pred" = Some (VIds pred) /\ pred !! 0%nat = Some pseq
            /\ pseq !! 0%nat = Some p /\ p = 1%Z.
Proof.
  assert (Hb : Fixture.sample !! "encoded" = Some (BDict Fixture.enc)) by reflexivity.
  assert (He : Fixture.enc !! "labels" = Some [[4; 15; 7; 0]]%Z) by reflexivity.
  assert (Hi : Fixture.sample !! "index" = Some (BTensor [7%Z])) by reflexivity.
  split; [exact Hb|]. split; [exact He|]. split; [exact Hi|].
  destruct (C5_train_step Fixture.ext Fixture.sample Fixture.enc _ _ Fixture.st0 Hb He Hi)
    as (r & st' & pred & made & Hs & Hd & _ & _ & Hp & _ & _ & _ & Hv & Hc & Hm & _).
  destruct (Hv 0%nat 0%nat _ _ eq_refl eq_refl)
    as (pseq & p & E1 & _ & E2 & Hp0 & Hx).
  destruct Hx as (x & Ex & Hmax & _);
    [discriminate|repeat constructor; eexists; reflexivity|].
  exists r, st'. split; [exact Hs|]. split; [exact Hd|].
  split; [rewrite Hc, Hm; reflexivity|].
  exists pred, pseq, p. split; [exact Hp|]. split; [exact E1|]. split; [exact E2|].
  assert (Hin : F64.one ∈ [F64.zero; F64.one]) by (rewrite !elem_of_cons; auto).
  specialize (Hmax F64.one Hin).
  destruct (Z.to_nat p) as [|[|n]] eqn:En; simpl in Ex.
  - inversion Ex; subst x. vm_compute in Hmax. discriminate Hmax.
  - lia.
  - discriminate Ex.
Defined.

Lemma C6_eval_step_witness :
  Fixture.sample !! "encoded" = Some (BDict Fixture.enc)
  /\ Fixture.enc !! "labels" = Some [[4; 15; 7; 0]]%Z
  /\ Fixture.sample !! "index" = Some (BTensor [7%Z])
  /\ length [[4; 15; 7; 0]]%Z = 1%nat
  /\ length (model_generate Fixture.ext false Fixture.enc) = 1%nat
  /\ exists r st',
       step Fixture.ext Fixture.sample "eval" Fixture.st0 = (OK r, st')
       /\ r !! "decoded_generation" = Some (VStrings ["cat"])
       /\ r !! "decoded_label" = Some (VStrings ["dog"]).
Proof.
  assert (Hb : Fixture.sample !! "encoded" = Some (BDict Fixture.enc)) by reflexivity.
  assert (He : Fixture.enc !! "labels" = Some [[4; 15; 7; 0]]%Z) by reflexivity.
  assert (Hi : Fixture.sample !! "index" = Some (BTensor [7%Z])) by reflexivity.
  assert (Hl : length [[4; 15; 7; 0]]%Z = 1%nat) by reflexivity.
  assert (Hg : length (model_generate Fixture.ext false Fixture.enc) = 1%nat) by reflexivity.
  split; [exact Hb|]. split; [exact He|]. split; [exact Hi|].
  split; [exact Hl|]. split; [exact Hg|].
  destruct (C6_eval_step Fixture.ext Fixture.sample Fixture.enc _ _ 1%nat Fixture.st0 Hb He Hi Hl Hg)
    as (r & st' & dg & dl & Hs & _ & _ & Hdg & Hdl & Eg & El & _).
  exists r, st'. split; [exact Hs|].
  rewrite Hdg, Hdl, Eg, El. split; reflexivity.
Defined.

(** ** predict_step *)

(** The first [n] rounds of the dictionary comprehension. *)
Lemma dict_comprehension_rounds (index : list Z) (decoded : list string) (n : nat) :
  n <= length index -> length index <= length decoded ->
  exists m : gmap Z string,
    foldl (λ acc i, m ← acc; kv ← output_entry index decoded i;
                    OK (<[kv.1 := kv.2]> m))
          (OK ∅) (seq 0 n) = OK m
    /\ dom m = list_to_set (take n index)
    /\ (forall k s, m !! k = Some s ->
          exists i, (i < n)%nat /\ index !! i = Some k /\ decoded !! i = Some s).
Proof.
  intros Hn Hl. induction n as [|n IH].
  - exists ∅. split; [reflexivity|]. split.
    + rewrite dom_empty_L. reflexivity.
    + intros k s H. rewrite lookup_empty in H. discriminate.
  - destruct IH as (m & Hm & Hd & Hv); [lia|].
    destruct (lookup_lt_is_Some_2 index n ltac:(lia)) as [k Hk].
    destruct (lookup_lt_is_Some_2 decoded n ltac:(lia)) as [s Hs].
    exists (<[k := s]> m). split; [|split].
    + rewrite seq_S, foldl_app. simpl. rewrite Hm.
      unfold output_entry. rewrite Hk, Hs. reflexivity.
    + rewrite dom_insert_L, Hd, (take_S_r index n k Hk), list_to_set_app_L.
      simpl. rewrite (right_id_L ∅ (∪)). apply (comm_L (∪)).
    + intros k' s' H. destruct (decide (k = k')) as [<-|Hne].
      * rewrite lookup_insert_eq in H. inversion H; subst. exists n. auto.
      * rewrite lookup_insert_ne in H by exact Hne.
        destruct (Hv k' s' H) as (i & Hi & Hik & His). exists i.
        split; [lia|]. split; assumption.
Qed.

Lemma dict_comprehension_ok (index : list Z) (decoded : list string) :
  length index <= length decoded ->
  exists m : gmap Z string,
    dict_comprehension index decoded = OK m
    /\ dom m = list_to_set index
    /\ (forall k s, m !! k = Some s ->
          exists i, index !! i = Some k /\ decoded !! i = Some s).
Proof.
  intros Hl.
  destruct (dict_comprehension_rounds index decoded (length index) ltac:(lia) Hl)
    as (m & Hm & Hd & Hv).
  exists m. split; [exact Hm|]. split.
  - rewrite Hd, firstn_all. reflexivity.
  - intros k s H. destruct (Hv k s H) as (i & _ & Hi). exists i. exact Hi.
Qed.

Section PredictFacts.
Context (ext : collaborators).

(** C9 (amended): on a batch with its [encoded] and [index] entries for
    which generation yields at least one sequence per index entry,
    [predict_step] calls generation and decoding only (no forward pass, so
    no loss) and builds a mapping whose keys are exactly the batch's index
    values, each mapped to the decoded string, possibly empty, of the
    generated sequence at a position holding that index; this mapping is
    what it hands to the gather and what it returns. *)
Theorem C9_predict_step (b : batch) (e : encoded) (index : list Z)
    (batch_idx : Z) (st : state) :
  b !! "encoded" = Some (BDict e) ->
  b !! "index" = Some (BTensor index) ->
  length index <= length (model_generate ext (training st) e) ->
  exists (output : gmap Z string) (st' : state),
    predict_step ext b batch_idx st = (OK output, st')
    /\ dom output = list_to_set index
    /\ (forall k, k ∈ dom output <-> k ∈ index)
    /\ (forall k s, output !! k = Some s ->
          exists i sequence,
            index !! i = Some k
            /\ model_generate ext (training st) e !! i = Some sequence
            /\ s = tokenizer_decode ext true false sequence)
    /\ calls st'
       = calls st ++ [ModelGenerate e;
                      BatchDecode (model_generate ext (training st) e) true false;
                      AllGather output]
    /\ (forall x, ModelForward x ∉ drop (length (calls st)) (calls st'))
    /\ training st' = training st.
Proof.
  intros Hb Hi Hl.
  set (generation := model_generate ext (training st) e) in *.
  destruct (dict_comprehension_ok index
              (map (tokenizer_decode ext true false) generation))
    as (m & Hm & Hd & Hv); [rewrite length_map; exact Hl|].
  exists m. eexists. split; [|split; [|split; [|split; [|split]]]].
  - unfold predict_step, mbind, M_bind, getitem.
    rewrite Hb. simpl. rewrite Hi. simpl. fold generation. unfold lift.
    rewrite Hm. simpl. reflexivity.
  - exact Hd.
  - intros k. rewrite Hd, elem_of_list_to_set. reflexivity.
  - intros k s H. destruct (Hv k s H) as (i & Hik & His).
    rewrite lookup_map in His.
    destruct (generation !! i) as [sequence|] eqn:Eg; [|discriminate].
    exists i, sequence. inversion His. auto.
  - simpl. rewrite <- !app_assoc. reflexivity.
  - simpl. split; [|reflexivity].
    rewrite <- !app_assoc, drop_app_length. simpl.
    intros x Hx. rewrite !elem_of_cons, elem_of_nil in Hx.
    destruct Hx as [Hx|[Hx|[Hx|[]]]]; discriminate Hx.
Qed.

End PredictFacts.

Lemma C9_predict_step_witness :
  Fixture.sample !! "encoded" = Some (BDict Fixture.enc)
  /\ Fixture.sample !! "index" = Some (BTensor [7%Z])
  /\ length [7%Z] <= length (model_generate Fixture.ext (training Fixture.st0) Fixture.enc)
  /\ exists st',
       predict_step Fixture.ext Fixture.sample 0 Fixture.st0 = (OK {[ 7%Z := "cat" ]}, st').
Proof.
  assert (Hb : Fixture.sample !! "encoded" = Some (BDict Fixture.enc)) by reflexivity.
  assert (Hi : Fixture.sample !! "index" = Some (BTensor [7%Z])) by reflexivity.
  assert (Hl : length [7%Z] <= length (model_generate Fixture.ext (training Fixture.st0) Fixture.enc))
    by (vm_compute; lia).
  split; [exact Hb|]. split; [exact Hi|]. split; [exact Hl|].
  destruct (C9_predict_step Fixture.ext Fixture.sample Fixture.enc [7%Z] 0 Fixture.st0 Hb Hi Hl)
    as (output & st' & Hs & _).
  exists st'. rewrite Hs. f_equal.
  assert (E : fst (predict_step Fixture.ext Fixture.sample 0 Fixture.st0)
              = OK ({[ 7%Z := "cat" ]} : gmap Z string)) by (vm_compute; reflexivity).
  rewrite Hs in E. exact E.
Defined.

(** C9 fails as stated: a sample whose generated sequence holds nothing
    but padding is mapped to the empty string. *)
Lemma C9_empty_decoded_string :
  Fixture.sample_pad !! "encoded" = Some (BDict Fixture.enc_pad)
  /\ Fixture.sample_pad !! "index" = Some (BTensor [7%Z])
  /\ model_generate Fixture.ext true Fixture.enc_pad = [[0; 0]]%Z
  /\ exists (output : gmap Z string) st',
       predict_step Fixture.ext Fixture.sample_pad 0 Fixture.st0 = (OK output, st')
       /\ output !! 7%Z = Some ""
       /\ ~ (forall k s, output !! k = Some s -> s <> "").
Proof.
  split; [reflexivity|]. split; [reflexivity|]. split; [reflexivity|].
  eexists _, _. split; [vm_compute; reflexivity|].
  split; [reflexivity|].
  intros H. apply (H 7%Z ""); reflexivity.
Qed.

(** * Further properties of the module *)

(** ** Edge cases and errors of the schedule arithmetic *)

Module ScheduleEdges.
Import F64 F64Facts Schedule.
Local Open Scope Z_scope.

(** The quotient of ordered non-negative floats, in closed form. *)
Lemma fdiv_ordered_value a b :
  0 <= a <= b -> 0 < b ->
  fdiv (Finite a) (Finite b) = OK (Finite (round_units (a * one_units) b))
  /\ 0 <= round_units (a * one_units) b <= one_units.
Proof.
  intros Ha Hb. pose proof one_units_pos.
  destruct (round_to_float_bounded (a * one_units) b one_units) as [E Hk];
    auto using one_units_representable, one_units_finite; try nia.
  split; [|exact Hk].
  unfold fdiv. destruct b as [|p|p]; try lia.
  replace (Z.sgn (Z.pos p) * a * one_units) with (a * one_units) by (simpl; lia).
  rewrite Z.abs_eq by lia. rewrite E. reflexivity.
Qed.

Lemma float_of_int_value n k :
  float_of_int n = OK (Finite k) -> k = round_units (n * one_units) 1.
Proof.
  unfold float_of_int. destruct (round_to_float (n * one_units) 1) eqn:E; intros H; inv_result H.
  apply round_to_float_finite in E. tauto.
Qed.

(** X1: the warmup multiplier never decreases from one step to the next. *)
Theorem lr_lambda_monotone self s step1 step2 :
  compute_schedule_state self = OK s ->
  0 <= step1 <= step2 ->
  exists v1 v2,
    lr_lambda (warmup_steps s) step1 = OK v1
    /\ lr_lambda (warmup_steps s) step2 = OK v2
    /\ fleb v1 v2 = true.
Proof.
  intros Hs Hst. pose proof one_units_pos as HU.
  destruct (Z_lt_le_dec step1 (warmup_steps s)) as [H1|H1].
  - destruct (warmup_steps_float self s Hs ltac:(lia)) as (kw & Ew & Hkw & Hb).
    destruct (lr_lambda_warmup _ kw step1 Ew Hkw Hb ltac:(lia))
      as (ka1 & k1 & Ea1 & Ed1 & El1 & Hka1 & Hk1).
    destruct (Z_lt_le_dec step2 (warmup_steps s)) as [H2|H2].
    + destruct (lr_lambda_warmup _ kw step2 Ew Hkw Hb ltac:(lia))
        as (ka2 & k2 & Ea2 & Ed2 & El2 & Hka2 & Hk2).
      exists (Finite k1), (Finite k2). split; [exact El1|]. split; [exact El2|].
      destruct (fdiv_ordered_value ka1 kw ltac:(lia) ltac:(lia)) as [F1 _].
      destruct (fdiv_ordered_value ka2 kw ltac:(lia) ltac:(lia)) as [F2 _].
      rewrite F1 in Ed1. rewrite F2 in Ed2. inv_result Ed1. inv_result Ed2.
      apply float_of_int_value in Ea1, Ea2. subst ka1 ka2.
      simpl. apply Z.leb_le. apply round_units_mono; [lia|].
      split; [nia|]. apply Z.mul_le_mono_nonneg_r; [lia|].
      apply round_units_mono; nia.
    + exists (Finite k1), one. split; [exact El1|].
      split; [apply lr_lambda_after; exact H2|]. simpl. apply Z.leb_le. lia.
  - exists one, one. rewrite !lr_lambda_after by lia.
    split; [reflexivity|]. split; [reflexivity|]. simpl. apply Z.leb_le. lia.
Qed.

Lemma lr_lambda_monotone_witness :
  compute_schedule_state Fixture.self = OK Fixture.schedule
  /\ 0 <= 3 <= 4
  /\ exists v1 v2,
       lr_lambda 10 3 = OK v1 /\ lr_lambda 10 4 = OK v2 /\ fleb v1 v2 = true.
Proof.
  assert (Hs : compute_schedule_state Fixture.self = OK Fixture.schedule)
    by (vm_compute; reflexivity).
  split; [exact Hs|]. split; [lia|].
  apply (lr_lambda_monotone Fixture.self Fixture.schedule 3 4 Hs). lia.
Defined.

(** X2: while [warmup_steps] has at most 53 bits the multiplier stays
    strictly below 1.0 throughout the warmup. *)
Theorem lr_lambda_below_one_in_warmup w step :
  0 <= step < w -> w <= 2 ^ prec ->
  exists k, lr_lambda w step = OK (Finite k) /\ 0 <= k < one_units.
Proof.
  intros Hst Hw. pose proof one_units_pos as HU.
  rewrite (lr_lambda_correctly_rounded w step Hst Hw), Z.max_r by lia.
  set (P := 2 ^ (- emin - prec)).
  assert (HP : 0 < P) by (apply pow2_pos; unfold emin, emax, prec; lia).
  assert (EU : one_units = 2 ^ prec * P).
  { unfold one_units, P. rewrite <- Z.pow_add_r by (unfold emin, emax, prec; lia).
    f_equal; lia. }
  assert (Hc : 0 < 2 ^ prec) by (apply pow2_pos; unfold prec; lia).
  assert (Hb : representable ((2 ^ prec - 1) * P)).
  { exists (2 ^ prec - 1), (- emin - prec). unfold P.
    repeat split; try lia; unfold emin, emax, prec; lia. }
  assert (Hfin : (2 ^ prec - 1) * P < 2 ^ (emax - emin)).
  { pose proof one_units_finite as Hf. rewrite EU in Hf. nia. }
  assert (Hle : step * one_units <= (2 ^ prec - 1) * P * w).
  { rewrite EU.
    assert (0 <= (w - 1 - step) * (2 ^ prec * P)) by (apply Z.mul_nonneg_nonneg; nia).
    assert (0 <= P * (2 ^ prec - w)) by (apply Z.mul_nonneg_nonneg; lia).
    nia. }
  destruct (round_to_float_bounded (step * one_units) w ((2 ^ prec - 1) * P))
    as [E Hk]; auto; try nia.
  exists (round_units (step * one_units) w). split; [rewrite E; reflexivity|].
  assert ((2 ^ prec - 1) * P = one_units - P) by (rewrite EU; ring). lia.
Qed.

Lemma lr_lambda_below_one_in_warmup_witness :
  0 <= 9 < 10 /\ 10 <= 2 ^ prec
  /\ exists k, lr_lambda 10 9 = OK (Finite k) /\ 0 <= k < one_units.
Proof.
  assert (H1 : 0 <= 9 < 10) by lia.
  assert (H2 : 10 <= 2 ^ prec) by (vm_compute; discriminate).
  split; [exact H1|]. split; [exact H2|].
  apply (lr_lambda_below_one_in_warmup 10 9 H1 H2).
Defined.

(** X3: a warmup ratio that is zero or negative gives no warmup at all:
    [warmup_steps <= 0] (exactly [0] for a zero ratio), the multiplier is
    [1.0] at every step and the cosine phase gets at least all the steps. *)
Theorem nonpositive_ratio_no_warmup self s b :
  compute_schedule_state self = OK s ->
  0 <= estimated_stepping_batches self ->
  warmup_ratio self = Finite b -> b <= 0 ->
  warmup_steps s <= 0
  /\ (b = 0 -> warmup_steps s = 0 /\ t_max s = total_steps s)
  /\ total_steps s <= t_max s
  /\ (forall step, 0 <= step -> lr_lambda (warmup_steps s) step = OK one).
Proof.
  intros Hs HT Hr Hb. pose proof one_units_pos as HU.
  destruct (schedule_state_inv self s Hs) as (a & k & Ea & Ek & _ & _ & ->).
  simpl. apply float_of_int_value in Ea.
  assert (Ha : 0 <= a) by (subst a; apply round_units_nonneg; nia).
  rewrite Hr in Ek. simpl in Ek. apply round_to_float_finite in Ek as [Ek _].
  assert (Hk : k <= 0) by (subst k; apply round_units_nonpos; nia).
  assert (Hq : k ÷ one_units <= 0).
  { pose proof (Z.quot_opp_l k one_units ltac:(lia)).
    pose proof (Z.quot_pos (- k) one_units ltac:(lia) HU). lia. }
  split; [exact Hq|]. split; [|split].
  - intros ->. rewrite Z.mul_0_r in Ek.
    assert (k = 0).
    { subst k. pose proof (round_units_nonneg 0 one_units HU ltac:(lia)). lia. }
    subst k. rewrite Z.quot_0_l by lia. lia.
  - lia.
  - intros step Hstep. apply lr_lambda_after. lia.
Qed.

Lemma nonpositive_ratio_no_warmup_witness :
  0 <= estimated_stepping_batches (Fixture.run zero 100)
  /\ warmup_ratio (Fixture.run zero 100) = Finite 0 /\ 0 <= 0
  /\ exists s,
       compute_schedule_state (Fixture.run zero 100) = OK s
       /\ warmup_steps s = 0 /\ t_max s = 100
       /\ lr_lambda (warmup_steps s) 0 = OK one.
Proof.
  split; [simpl; lia|]. split; [reflexivity|]. split; [lia|].
  destruct (compute_schedule_state (Fixture.run zero 100)) as [s|e] eqn:Hs;
    [|vm_compute in Hs; discriminate Hs].
  exists s. split; [reflexivity|].
  destruct (nonpositive_ratio_no_warmup (Fixture.run zero 100) s 0 Hs
              ltac:(simpl; lia) eq_refl ltac:(lia))
    as (_ & H0 & _ & Hl).
  destruct (H0 eq_refl) as [Hw Ht]. split; [exact Hw|]. split.
  - rewrite Ht. vm_compute in Hs. inversion Hs. reflexivity.
  - apply Hl. lia.
Defined.

(** X4: with [warmup_ratio = 1.0] and at most 53 bits of steps, every step
    is a warmup step and the cosine phase is left with [T_max = 0]. *)
Theorem full_ratio_all_warmup self :
  0 <= estimated_stepping_batches self <= 2 ^ prec ->
  warmup_ratio self = one ->
  compute_schedule_state self
  = OK {| total_steps := estimated_stepping_batches self;
          warmup_steps := estimated_stepping_batches self;
          t_max := 0;
          eta_min := fmul (lr self) (eta_min_ratio self) |}.
Proof.
  intros HT Hr. pose proof one_units_pos as HU.
  set (T := estimated_stepping_batches self) in *.
  unfold compute_schedule_state, mbind, result_bind. fold T.
  rewrite (float_of_int_exact T HT), Hr. unfold one, fmul.
  pose proof (int_representable T HT) as Hrep.
  destruct (round_to_float_bounded (T * one_units * one_units) one_units (T * one_units))
    as [E _]; auto using int_units_finite; try nia.
  rewrite E, round_units_exact by auto. unfold int_of_float.
  rewrite Z.quot_mul by lia. rewrite Z.sub_diag. reflexivity.
Qed.

Lemma full_ratio_all_warmup_witness :
  0 <= estimated_stepping_batches (Fixture.run one 100) <= 2 ^ prec
  /\ warmup_ratio (Fixture.run one 100) = one
  /\ exists s,
       compute_schedule_state (Fixture.run one 100) = OK s
       /\ warmup_steps s = 100 /\ t_max s = 0.
Proof.
  assert (HT : 0 <= estimated_stepping_batches (Fixture.run one 100) <= 2 ^ prec)
    by (vm_compute; split; discriminate).
  split; [exact HT|]. split; [reflexivity|].
  eexists. split; [apply (full_ratio_all_warmup (Fixture.run one 100) HT eq_refl)|].
  split; reflexivity.
Defined.

Lemma float_of_int_overflow n :
  2 ^ emax <= n -> float_of_int n = Raise OverflowError.
Proof.
  intros Hn. pose proof one_units_pos as HU.
  assert (Hp : 2 ^ (emax - emin) = 2 ^ emax * one_units).
  { unfold one_units. rewrite <- Z.pow_add_r by (unfold emin, emax, prec; lia).
    f_equal; lia. }
  assert (Hb : representable (2 ^ (emax - emin))).
  { exists 1, (emax - emin). repeat split; try lia; unfold emin, emax, prec; lia. }
  assert (He : 0 < 2 ^ emax) by (apply pow2_pos; unfold emax; lia).
  pose proof (round_units_ge (n * one_units) 1 _ ltac:(lia) ltac:(nia) Hb ltac:(nia)) as Hge.
  unfold float_of_int, round_to_float.
  destruct (Z.ltb_spec (Z.abs (round_units (n * one_units) 1)) (2 ^ (emax - emin)));
    [lia|reflexivity].
Qed.

(** X5: the errors of the schedule arithmetic. A number of steps of
    [2^1024] or more cannot be converted ([OverflowError]); a NaN warmup
    ratio fails in [int()] with [ValueError]; an infinite one with
    [OverflowError] (with [ValueError] when there are no steps, as
    [0 * inf] is NaN). Once the optimizer is built, this is the error
    [configure_optimizers] raises. *)
Theorem schedule_arithmetic_errors construct self :
  (2 ^ emax <= estimated_stepping_batches self ->
   compute_schedule_state self = Raise OverflowError)
  /\ (forall total,
        float_of_int (estimated_stepping_batches self) = OK total ->
        warmup_ratio self = NaN ->
        compute_schedule_state self
        = Raise (ValueError "cannot convert float NaN to integer"))
  /\ (forall a sign,
        float_of_int (estimated_stepping_batches self) = OK (Finite a) ->
        warmup_ratio self = Infinity sign ->
        (a <> 0 -> compute_schedule_state self = Raise OverflowError)
        /\ (a = 0 ->
            compute_schedule_state self
            = Raise (ValueError "cannot convert float NaN to integer")))
  /\ (forall x, construct (select_optimizer self) = OK tt ->
        compute_schedule_state self = Raise x ->
        configure_optimizers construct self = Raise x).
Proof.
  split; [|split; [|split]].
  - intros HT. apply float_of_int_overflow in HT.
    unfold compute_schedule_state, mbind, result_bind. rewrite HT. reflexivity.
  - intros total Et Hr.
    unfold compute_schedule_state, mbind, result_bind.
    rewrite Et, Hr. destruct total; reflexivity.
  - intros a sign Et Hr. split.
    + intros Ha. apply Z.eqb_neq in Ha.
      unfold compute_schedule_state, mbind, result_bind.
      rewrite Et, Hr. simpl. rewrite Ha. reflexivity.
    + intros ->.
      unfold compute_schedule_state, mbind, result_bind.
      rewrite Et, Hr. reflexivity.
  - intros x Hc Hs. unfold configure_optimizers, mbind, result_bind.
    cbv zeta. rewrite Hc, Hs. reflexivity.
Qed.

Lemma schedule_arithmetic_errors_witness :
  2 ^ emax <= estimated_stepping_batches (Fixture.run one (2 ^ 1024))
  /\ Fixture.construct (select_optimizer (Fixture.run one (2 ^ 1024))) = OK tt
  /\ configure_optimizers Fixture.construct (Fixture.run one (2 ^ 1024))
     = Raise OverflowError
  /\ float_of_int (estimated_stepping_batches (Fixture.run NaN 100))
     = OK (Finite (100 * one_units))
  /\ warmup_ratio (Fixture.run NaN 100) = NaN
  /\ compute_schedule_state (Fixture.run NaN 100)
     = Raise (ValueError "cannot convert float NaN to integer")
  /\ warmup_ratio (Fixture.run (Infinity false) 100) = Infinity false
  /\ 100 * one_units <> 0
  /\ compute_schedule_state (Fixture.run (Infinity false) 100) = Raise OverflowError.
Proof.
  assert (H1 : 2 ^ emax <= estimated_stepping_batches (Fixture.run one (2 ^ 1024)))
    by (vm_compute; discriminate).
  assert (Hc : Fixture.construct (select_optimizer (Fixture.run one (2 ^ 1024))) = OK tt)
    by (vm_compute; reflexivity).
  assert (H2 : float_of_int (estimated_stepping_batches (Fixture.run NaN 100))
               = OK (Finite (100 * one_units))) by (vm_compute; reflexivity).
  assert (H3 : 100 * one_units <> 0) by (vm_compute; discriminate).
  destruct (schedule_arithmetic_errors Fixture.construct (Fixture.run one (2 ^ 1024)))
    as (Ha & _ & _ & Hp).
  destruct (schedule_arithmetic_errors Fixture.construct (Fixture.run NaN 100))
    as (_ & Hb & _).
  destruct (schedule_arithmetic_errors Fixture.construct (Fixture.run (Infinity false) 100))
    as (_ & _ & Hi & _).
  split; [exact H1|]. split; [exact Hc|].
  split; [apply (Hp _ Hc (Ha H1))|]. split; [exact H2|].
  split; [reflexivity|]. split; [apply (Hb _ H2 eq_refl)|].
  split; [reflexivity|]. split; [exact H3|].
  apply (Hi _ false H2 eq_refl). exact H3.
Defined.

(** X6: for every number of steps that converts to a float and every
    warmup ratio in [0, 1], [configure_optimizers] raises nothing once
    the optimizer is built, and [0 <= warmup_steps <= float(total_steps)];
    so [warmup_steps] stays within [total_steps] whenever the conversion
    does not round up. *)
Theorem configure_optimizers_succeeds construct self a :
  construct (select_optimizer self) = OK tt ->
  0 <= estimated_stepping_batches self ->
  float_of_int (estimated_stepping_batches self) = OK (Finite a) ->
  fleb zero (warmup_ratio self) = true ->
  fleb (warmup_ratio self) one = true ->
  exists s cfg,
    compute_schedule_state self = OK s
    /\ configure_optimizers construct self = OK cfg
    /\ 0 <= warmup_steps s
    /\ warmup_steps s * one_units <= a
    /\ (a <= estimated_stepping_batches self * one_units ->
        warmup_steps s <= total_steps s /\ 0 <= t_max s).
Proof.
  intros Hc HT Ea H0 H1. pose proof one_units_pos as HU.
  destruct (ratio_in_unit_interval _ H0 H1) as (b & Hr & Hb).
  pose proof Ea as Ev. apply float_of_int_value in Ev.
  assert (Hrep : representable a)
    by (subst a; apply round_units_representable; nia).
  assert (Hfin : a < 2 ^ (emax - emin)).
  { unfold float_of_int in Ea.
    destruct (round_to_float (estimated_stepping_batches self * one_units) 1) eqn:E;
      inv_result Ea.
    apply round_to_float_finite in E. lia. }
  destruct (fmul_ratio a b Hrep Hfin Hb) as (k & Ek & Hk).
  assert (Hs : compute_schedule_state self
               = OK {| total_steps := estimated_stepping_batches self;
                       warmup_steps := k / one_units;
                       t_max := estimated_stepping_batches self - k / one_units;
                       eta_min := fmul (lr self) (eta_min_ratio self) |}).
  { unfold compute_schedule_state, mbind, result_bind.
    rewrite Ea, Hr, Ek, int_of_float_floor by lia. reflexivity. }
  eexists _, _. split; [exact Hs|].
  split; [apply (configure_optimizers_inv construct self _ Hc Hs)|]. simpl.
  assert (Hq : 0 <= k / one_units) by (apply Z.div_pos; lia).
  pose proof (Z.mul_div_le k one_units HU) as Hm.
  split; [exact Hq|]. split; [lia|].
  intros Hle. assert (k / one_units <= estimated_stepping_batches self).
  { apply Z.div_le_upper_bound; lia. }
  lia.
Qed.

Lemma configure_optimizers_succeeds_witness :
  Fixture.construct (select_optimizer Fixture.long_run) = OK tt
  /\ 0 <= estimated_stepping_batches Fixture.long_run
  /\ float_of_int (estimated_stepping_batches Fixture.long_run)
     = OK (Finite ((2 ^ 53 + 4) * one_units))
  /\ fleb zero (warmup_ratio Fixture.long_run) = true
  /\ fleb (warmup_ratio Fixture.long_run) one = true
  /\ exists s cfg,
       compute_schedule_state Fixture.long_run = OK s
       /\ configure_optimizers Fixture.construct Fixture.long_run = OK cfg
       /\ warmup_steps s * one_units <= (2 ^ 53 + 4) * one_units.
Proof.
  assert (HT : 0 <= estimated_stepping_batches Fixture.long_run)
    by (vm_compute; discriminate).
  assert (Ea : float_of_int (estimated_stepping_batches Fixture.long_run)
               = OK (Finite ((2 ^ 53 + 4) * one_units))) by (vm_compute; reflexivity).
  assert (H0 : fleb zero (warmup_ratio Fixture.long_run) = true) by (vm_compute; reflexivity).
  assert (H1 : fleb (warmup_ratio Fixture.long_run) one = true) by (vm_compute; reflexivity).
  assert (Hc : Fixture.construct (select_optimizer Fixture.long_run) = OK tt)
    by (vm_compute; reflexivity).
  split; [exact Hc|].
  split; [exact HT|]. split; [exact Ea|]. split; [exact H0|]. split; [exact H1|].
  destruct (configure_optimizers_succeeds Fixture.construct Fixture.long_run _ Hc HT Ea H0 H1)
    as (s & cfg & Hs & Hcfg & _ & Hle & _).
  exists s, cfg. auto.
Defined.

End ScheduleEdges.

(** ** Errors and effects of the step hooks *)

Section StepEdges.
Context (ext : collaborators).

Lemma step_without_encoded (b : batch) (mode : string) (st : state) :
  b !! "encoded" = None ->
  step ext b mode st = (Raise (KeyError "encoded"), st).
Proof.
  intros Hb. unfold step, mbind, M_bind, getitem. rewrite Hb. reflexivity.
Qed.

(** X7: [step] looks up [encoded], then [labels], then [index] before it
    touches the model: a batch lacking one of them raises the [KeyError]
    of the first missing key, whatever the mode, and the state (mode flag,
    accumulators, calls made) is unchanged. *)
Theorem step_missing_key (b : batch) (mode : string) (st : state) :
  (b !! "encoded" = None ->
   step ext b mode st = (Raise (KeyError "encoded"), st))
  /\ (forall e, b !! "encoded" = Some (BDict e) -> e !! "labels" = None ->
        step ext b mode st = (Raise (KeyError "labels"), st))
  /\ (forall e label, b !! "encoded" = Some (BDict e) ->
        e !! "labels" = Some label -> b !! "index" = None ->
        step ext b mode st = (Raise (KeyError "index"), st)).
Proof.
  split; [|split].
  - apply step_without_encoded.
  - intros e Hb He. unfold step, mbind, M_bind, getitem.
    rewrite Hb. simpl. rewrite He. reflexivity.
  - intros e label Hb He Hi. unfold step, mbind, M_bind, getitem.
    rewrite Hb. simpl. rewrite He. simpl. rewrite Hi. reflexivity.
Qed.

(** X8: [step] with a mode other than ["train"] and ["eval"] raises the
    [ValueError] of [forward] on a complete batch, before the model is
    switched or called: the state is unchanged. *)
Theorem step_invalid_mode (b : batch) (e : encoded) (label : ids)
    (index : batch_entry) (mode : string) (st : state) :
  b !! "encoded" = Some (BDict e) -> e !! "labels" = Some label ->
  b !! "index" = Some index ->
  mode <> "train" -> mode <> "eval" ->
  step ext b mode st = (Raise (InvalidModeError mode), st).
Proof.
  intros Hb He Hi Ht Hv.
  unfold step, mbind, M_bind, getitem.
  rewrite Hb. simpl. rewrite He. simpl. rewrite Hi. simpl.
  rewrite (forward_invalid ext e mode st Ht Hv). reflexivity.
Qed.

(** X9: [training_step] returns exactly [loss], [pred] and [label], logs
    ["train_loss"] once (per epoch, off the progress bar, synchronized),
    calls neither generation nor the tokenizer, leaves the model in
    training mode and the metric accumulators alone. *)
Theorem training_step_result (b : batch) (e : encoded) (label : ids)
    (index : batch_entry) (batch_idx : Z) (st : state) :
  b !! "encoded" = Some (BDict e) -> e !! "labels" = Some label ->
  b !! "index" = Some index ->
  exists (r : gmap string value) (st' : state),
    training_step ext b batch_idx st = (OK r, st')
    /\ dom r = ({["loss"; "pred"; "label"]} : gset string)
    /\ r !! "loss" = Some (VScalar (output_loss (model_call ext true e)))
    /\ r !! "pred"
       = Some (VIds (argmax_last (output_logits (model_call ext true e))))
    /\ r !! "label" = Some (VIds label)
    /\ calls st'
       = calls st
         ++ [ModelTrain; ModelForward e;
             Log "train_loss" (VScalar (output_loss (model_call ext true e)))
                 false true false true]
    /\ training st' = true
    /\ val_metrics st' = val_metrics st
    /\ test_metrics st' = test_metrics st.
Proof.
  intros Hb He Hi. unfold training_step, mbind, M_bind.
  rewrite (step_train ext b e label index st Hb He Hi).
  eexists _, _. split; [reflexivity|]. simpl.
  split; [rewrite !dom_insert_L, dom_empty_L; set_solver|].
  split; [reflexivity|]. split; [reflexivity|]. split; [reflexivity|].
  split; [rewrite <- !app_assoc; reflexivity|]. auto.
Qed.

(** X10: [validation_step] returns exactly [loss], [pred], [generation],
    [decoded_generation], [label], [decoded_label] (neither [logit] nor
    [index]), records the decoded (generation, label) pairs in the
    validation accumulator only, logs ["val_loss"] synchronized and the
    batch metrics on the progress bar unsynchronized, and leaves the model
    in inference mode. *)
Theorem validation_step_result (b : batch) (e : encoded) (label : ids)
    (index : batch_entry) (batch_idx : Z) (st : state) :
  b !! "encoded" = Some (BDict e) -> e !! "labels" = Some label ->
  b !! "index" = Some index ->
  let generation := model_generate ext false e in
  let preds := map (tokenizer_decode ext true false) generation in
  let targets := map (tokenizer_decode ext true false) label in
  let loss := VScalar (output_loss (model_call ext false e)) in
  exists (r : gmap string value) (st' : state),
    validation_step ext b batch_idx st = (OK r, st')
    /\ dom r = ({["loss"; "pred"; "generation"; "decoded_generation";
                  "label"; "decoded_label"]} : gset string)
    /\ r !! "decoded_generation" = Some (VStrings preds)
    /\ r !! "decoded_label" = Some (VStrings targets)
    /\ val_metrics st' = val_metrics st ++ zip preds targets
    /\ test_metrics st' = test_metrics st
    /\ calls st'
       = calls st
         ++ [ModelEval; ModelForward e; ModelGenerate e;
             BatchDecode generation true false; BatchDecode label true false;
             Log "val_loss" loss false true false true;
             LogDict (prefixed "val_" (rouge_score ext preds targets))
                     false true true false]
    /\ training st' = false.
Proof.
  intros Hb He Hi. unfold validation_step, mbind, M_bind.
  rewrite (step_eval ext b e label index st Hb He Hi).
  eexists _, _. split; [reflexivity|]. simpl.
  split; [rewrite !dom_insert_L, dom_empty_L; set_solver|].
  split; [reflexivity|]. split; [reflexivity|]. split; [reflexivity|].
  split; [reflexivity|].
  split; [rewrite <- !app_assoc; reflexivity|]. reflexivity.
Qed.

(** X11: [test_step] does the same against the test accumulator, under the
    names ["test_loss"] and ["test_"], and never touches the validation
    accumulator. *)
Theorem test_step_result (b : batch) (e : encoded) (label : ids)
    (index : batch_entry) (batch_idx : Z) (st : state) :
  b !! "encoded" = Some (BDict e) -> e !! "labels" = Some label ->
  b !! "index" = Some index ->
  let generation := model_generate ext false e in
  let preds := map (tokenizer_decode ext true false) generation in
  let targets := map (tokenizer_decode ext true false) label in
  let loss := VScalar (output_loss (model_call ext false e)) in
  exists (r : gmap string value) (st' : state),
    test_step ext b batch_idx st = (OK r, st')
    /\ dom r = ({["loss"; "pred"; "generation"; "decoded_generation";
                  "label"; "decoded_label"]} : gset string)
    /\ r !! "decoded_generation" = Some (VStrings preds)
    /\ r !! "decoded_label" = Some (VStrings targets)
    /\ test_metrics st' = test_metrics st ++ zip preds targets
    /\ val_metrics st' = val_metrics st
    /\ calls st'
       = calls st
         ++ [ModelEval; ModelForward e; ModelGenerate e;
             BatchDecode generation true false; BatchDecode label true false;
             Log "test_loss" loss false true false true;
             LogDict (prefixed "test_" (rouge_score ext preds targets))
                     false true true false]
    /\ training st' = false.
Proof.
  intros Hb He Hi. unfold test_step, mbind, M_bind.
  rewrite (step_eval ext b e label index st Hb He Hi).
  eexists _, _. split; [reflexivity|]. simpl.
  split; [rewrite !dom_insert_L, dom_empty_L; set_solver|].
  split; [reflexivity|]. split; [reflexivity|]. split; [reflexivity|].
  split; [reflexivity|].
  split; [rewrite <- !app_assoc; reflexivity|]. reflexivity.
Qed.

(** X12: a batch without [encoded] makes each of the three step hooks raise
    [KeyError] with nothing logged and no accumulator touched. *)
Theorem step_hooks_missing_encoded (b : batch) (batch_idx : Z) (st : state) :
  b !! "encoded" = None ->
  training_step ext b batch_idx st = (Raise (KeyError "encoded"), st)
  /\ validation_step ext b batch_idx st = (Raise (KeyError "encoded"), st)
  /\ test_step ext b batch_idx st = (Raise (KeyError "encoded"), st).
Proof.
  intros Hb.
  unfold training_step, validation_step, test_step, mbind, M_bind.
  rewrite !(step_without_encoded _ _ _ Hb). auto.
Qed.

End StepEdges.

(** ** Errors and duplicates in [predict_step] *)

(** Once a round of the comprehension has raised, the rest is skipped. *)
Lemma dict_comprehension_raised (index : list Z) (decoded : list string)
    (x : exception) (rounds : list nat) :
  foldl (λ (acc : result (gmap Z string)) i,
           m ← acc; kv ← output_entry index decoded i; OK (<[kv.1 := kv.2]> m))
        (Raise x) rounds = Raise x.
Proof. induction rounds as [|i rounds IH]; simpl; auto. Qed.

(** After [n] rounds every key seen holds the string of its last
    position so far. *)
Lemma dict_comprehension_last (index : list Z) (decoded : list string) (n : nat) :
  n <= length index -> n <= length decoded ->
  exists m : gmap Z string,
    foldl (λ acc i, m ← acc; kv ← output_entry index decoded i;
                    OK (<[kv.1 := kv.2]> m))
          (OK ∅) (seq 0 n) = OK m
    /\ (forall i k, (i < n)%nat -> index !! i = Some k ->
          (forall j, (i < j < n)%nat -> index !! j <> Some k) ->
          m !! k = decoded !! i).
Proof.
  intros Hn Hl. induction n as [|n IH].
  - exists ∅. split; [reflexivity|]. intros i k Hi. lia.
  - destruct IH as (m & Hm & Hv); [lia|lia|].
    destruct (lookup_lt_is_Some_2 index n ltac:(lia)) as [kn Hk].
    destruct (lookup_lt_is_Some_2 decoded n ltac:(lia)) as [sn Hs].
    exists (<[kn := sn]> m). split.
    + rewrite seq_S, foldl_app. simpl. rewrite Hm.
      unfold output_entry. rewrite Hk, Hs. reflexivity.
    + intros i k Hi Hik Hlast. destruct (decide (i = n)) as [->|Hne].
      * rewrite Hk in Hik. inversion Hik; subst.
        rewrite lookup_insert_eq. symmetry. exact Hs.
      * assert (kn <> k).
        { intros ->. apply (Hlast n); [lia|exact Hk]. }
        rewrite lookup_insert_ne by assumption.
        apply Hv; [lia|exact Hik|]. intros j Hj. apply Hlast. lia.
Qed.

Lemma dict_comprehension_short (index : list Z) (decoded : list string) :
  length decoded < length index ->
  dict_comprehension index decoded = Raise IndexError.
Proof.
  intros Hl. unfold dict_comprehension.
  replace (length index)
    with (length decoded + S (length index - S (length decoded)))%nat by lia.
  rewrite seq_app, foldl_app. simpl.
  destruct (dict_comprehension_last index decoded (length decoded)) as (m & Hm & _);
    [lia|lia|].
  rewrite Hm. unfold output_entry at 2.
  rewrite (lookup_ge_None_2 decoded (length decoded)) by lia.
  destruct (index !! length decoded); simpl; apply dict_comprehension_raised.
Qed.

Section PredictEdges.
Context (ext : collaborators).

(** [predict_step] up to the outcome of its comprehension. *)
Lemma predict_step_run (b : batch) (e : encoded) (index : list Z)
    (batch_idx : Z) (st : state) :
  b !! "encoded" = Some (BDict e) ->
  b !! "index" = Some (BTensor index) ->
  let generation := model_generate ext (training st) e in
  let decoded := record_call (BatchDecode generation true false)
                   (record_call (ModelGenerate e) st) in
  predict_step ext b batch_idx st
  = match dict_comprehension index
            (map (tokenizer_decode ext true false) generation) with
    | OK m => (OK m, record_call (AllGather m) decoded)
    | Raise x => (Raise x, decoded)
    end.
Proof.
  intros Hb Hi. unfold predict_step, mbind, M_bind, getitem.
  rewrite Hb. simpl. rewrite Hi. simpl. unfold lift.
  destruct (dict_comprehension _ _); reflexivity.
Qed.

(** X13: when generation returns fewer sequences than the batch has index
    entries, [predict_step] raises [IndexError] after generating and
    decoding; the gather is not reached. *)
Theorem predict_step_too_few_sequences (b : batch) (e : encoded)
    (index : list Z) (batch_idx : Z) (st : state) :
  b !! "encoded" = Some (BDict e) ->
  b !! "index" = Some (BTensor index) ->
  length (model_generate ext (training st) e) < length index ->
  exists st',
    predict_step ext b batch_idx st = (Raise IndexError, st')
    /\ calls st'
       = calls st ++ [ModelGenerate e;
                      BatchDecode (model_generate ext (training st) e) true false].
Proof.
  intros Hb Hi Hl. rewrite (predict_step_run b e index batch_idx st Hb Hi).
  rewrite dict_comprehension_short by (rewrite length_map; exact Hl).
  eexists. split; [reflexivity|]. simpl. rewrite <- app_assoc. reflexivity.
Qed.

(** X14: [predict_step] reads [encoded] and [index] before anything else:
    a batch lacking one of them raises its [KeyError] with nothing
    generated and the state unchanged. *)
Theorem predict_step_missing_key (b : batch) (batch_idx : Z) (st : state) :
  (b !! "encoded" = None ->
   predict_step ext b batch_idx st = (Raise (KeyError "encoded"), st))
  /\ (forall e, b !! "encoded" = Some (BDict e) -> b !! "index" = None ->
        predict_step ext b batch_idx st = (Raise (KeyError "index"), st)).
Proof.
  split.
  - intros Hb. unfold predict_step, mbind, M_bind, getitem. rewrite Hb. reflexivity.
  - intros e Hb Hi. unfold predict_step, mbind, M_bind, getitem.
    rewrite Hb. simpl. rewrite Hi. reflexivity.
Qed.

(** X15: when several samples of a batch carry the same index, the mapping
    that [predict_step] hands to the gather keeps the decoded string of
    the last of them. *)
Theorem predict_step_last_sample_wins (b : batch) (e : encoded)
    (index : list Z) (batch_idx : Z) (st : state) :
  b !! "encoded" = Some (BDict e) ->
  b !! "index" = Some (BTensor index) ->
  length index <= length (model_generate ext (training st) e) ->
  exists (output gathered : gmap Z string) (st' : state),
    predict_step ext b batch_idx st = (OK gathered, st')
    /\ calls st'
       = calls st ++ [ModelGenerate e;
                      BatchDecode (model_generate ext (training st) e) true false;
                      AllGather output]
    /\ (forall i k, index !! i = Some k ->
          (forall j, (i < j)%nat -> index !! j <> Some k) ->
          output !! k
          = tokenizer_decode ext true false
              <$> model_generate ext (training st) e !! i).
Proof.
  intros Hb Hi Hl. rewrite (predict_step_run b e index batch_idx st Hb Hi).
  set (generation := model_generate ext (training st) e) in *.
  destruct (dict_comprehension_last index
              (map (tokenizer_decode ext true false) generation) (length index))
    as (m & Hm & Hv); [lia|rewrite length_map; lia|].
  unfold dict_comprehension. rewrite Hm.
  exists m. eexists _, _. split; [reflexivity|]. split.
  - simpl. rewrite <- !app_assoc. reflexivity.
  - intros i k Hik Hlast. rewrite <- lookup_map.
    apply Hv; [apply lookup_lt_Some in Hik; exact Hik|exact Hik|].
    intros j Hj. apply Hlast. lia.
Qed.

(** X16: [predict_step] never switches the model's mode, so it generates
    in the mode the last forward pass left: training behaviour after
    [step(batch, "train")], inference behaviour after
    [step(batch, "eval")]. *)
Theorem predict_step_keeps_mode (b : batch) (e : encoded) (label : ids)
    (index : list Z) (batch_idx : Z) (st : state) :
  b !! "encoded" = Some (BDict e) -> e !! "labels" = Some label ->
  b !! "index" = Some (BTensor index) ->
  (exists r st1 out st2,
     step ext b "train" st = (OK r, st1)
     /\ predict_step ext b batch_idx st1 = (out, st2)
     /\ training st2 = true
     /\ BatchDecode (model_generate ext true e) true false ∈ calls st2)
  /\ (exists r st1 out st2,
        step ext b "eval" st = (OK r, st1)
        /\ predict_step ext b batch_idx st1 = (out, st2)
        /\ training st2 = false
        /\ BatchDecode (model_generate ext false e) true false ∈ calls st2).
Proof.
  intros Hb He Hi. split.
  - rewrite (step_train ext b e label (BTensor index) st Hb He Hi).
    eexists _, _. 
    rewrite (predict_step_run b e index batch_idx _ Hb Hi). simpl.
    destruct (dict_comprehension _ _); eexists _, _;
      (split; [reflexivity|]); (split; [reflexivity|]); (split; [reflexivity|]);
      simpl; rewrite !elem_of_app, !list_elem_of_singleton; auto.
  - rewrite (step_eval ext b e label (BTensor index) st Hb He Hi).
    eexists _, _.
    rewrite (predict_step_run b e index batch_idx _ Hb Hi). simpl.
    destruct (dict_comprehension _ _); eexists _, _;
      (split; [reflexivity|]); (split; [reflexivity|]); (split; [reflexivity|]);
      simpl; rewrite !elem_of_app, !list_elem_of_singleton; auto.
Qed.

End PredictEdges.

(** ** The further properties on concrete batches *)

Lemma step_missing_key_witness :
  (∅ : batch) !! "encoded" = None
  /\ step Fixture.ext ∅ "train" Fixture.st0 = (Raise (KeyError "encoded"), Fixture.st0)
  /\ Fixture.no_index !! "encoded" = Some (BDict Fixture.enc)
  /\ Fixture.enc !! "labels" = Some [[4; 15; 7; 0]]%Z
  /\ Fixture.no_index !! "index" = None
  /\ step Fixture.ext Fixture.no_index "eval" Fixture.st0
     = (Raise (KeyError "index"), Fixture.st0)
  /\ exists e,
       Fixture.no_labels !! "encoded" = Some (BDict e) /\ e !! "labels" = None
       /\ step Fixture.ext Fixture.no_labels "eval" Fixture.st0
          = (Raise (KeyError "labels"), Fixture.st0).
Proof.
  assert (H1 : (∅ : batch) !! "encoded" = None) by reflexivity.
  assert (H2 : Fixture.no_index !! "encoded" = Some (BDict Fixture.enc)) by reflexivity.
  assert (H3 : Fixture.enc !! "labels" = Some [[4; 15; 7; 0]]%Z) by reflexivity.
  assert (H4 : Fixture.no_index !! "index" = None) by reflexivity.
  split; [exact H1|].
  split; [apply (step_missing_key Fixture.ext ∅ "train" Fixture.st0); exact H1|].
  split; [exact H2|]. split; [exact H3|]. split; [exact H4|].
  split.
  - destruct (step_missing_key Fixture.ext Fixture.no_index "eval" Fixture.st0)
      as (_ & _ & H). apply (H _ _ H2 H3 H4).
  - eexists. split; [reflexivity|]. split; [reflexivity|].
    destruct (step_missing_key Fixture.ext Fixture.no_labels "eval" Fixture.st0)
      as (_ & H & _). apply (H _ eq_refl eq_refl).
Defined.

Lemma step_invalid_mode_witness :
  Fixture.sample !! "encoded" = Some (BDict Fixture.enc)
  /\ Fixture.enc !! "labels" = Some [[4; 15; 7; 0]]%Z
  /\ Fixture.sample !! "index" = Some (BTensor [7%Z])
  /\ "predict" <> "train" /\ "predict" <> "eval"
  /\ step Fixture.ext Fixture.sample "predict" Fixture.st0
     = (Raise (ValueError "Invalid model mode: predict"), Fixture.st0).
Proof.
  assert (Ht : "predict" <> "train") by discriminate.
  assert (He : "predict" <> "eval") by discriminate.
  split; [reflexivity|]. split; [reflexivity|]. split; [reflexivity|].
  split; [exact Ht|]. split; [exact He|].
  apply (step_invalid_mode Fixture.ext Fixture.sample Fixture.enc _ _ "predict"
           Fixture.st0 eq_refl eq_refl eq_refl Ht He).
Defined.

Lemma training_step_result_witness :
  Fixture.sample !! "encoded" = Some (BDict Fixture.enc)
  /\ Fixture.enc !! "labels" = Some [[4; 15; 7; 0]]%Z
  /\ Fixture.sample !! "index" = Some (BTensor [7%Z])
  /\ exists r st',
       training_step Fixture.ext Fixture.sample 0 Fixture.st0 = (OK r, st')
       /\ dom r = ({["loss"; "pred"; "label"]} : gset string)
       /\ training st' = true.
Proof.
  split; [reflexivity|]. split; [reflexivity|]. split; [reflexivity|].
  destruct (training_step_result Fixture.ext Fixture.sample Fixture.enc _ _ 0
              Fixture.st0 eq_refl eq_refl eq_refl)
    as (r & st' & Hs & Hd & _ & _ & _ & _ & Ht & _).
  exists r, st'. auto.
Defined.

Lemma validation_step_result_witness :
  Fixture.sample !! "encoded" = Some (BDict Fixture.enc)
  /\ Fixture.enc !! "labels" = Some [[4; 15; 7; 0]]%Z
  /\ Fixture.sample !! "index" = Some (BTensor [7%Z])
  /\ exists r st',
       validation_step Fixture.ext Fixture.sample 0 Fixture.st0 = (OK r, st')
       /\ val_metrics st' = [("cat", "dog")]
       /\ test_metrics st' = [].
Proof.
  split; [reflexivity|]. split; [reflexivity|]. split; [reflexivity|].
  destruct (validation_step_result Fixture.ext Fixture.sample Fixture.enc _ _ 0
              Fixture.st0 eq_refl eq_refl eq_refl)
    as (r & st' & Hs & _ & _ & _ & Hv & Ht & _).
  exists r, st'. split; [exact Hs|]. rewrite Hv, Ht. split; reflexivity.
Defined.

Lemma test_step_result_witness :
  Fixture.sample !! "encoded" = Some (BDict Fixture.enc)
  /\ Fixture.enc !! "labels" = Some [[4; 15; 7; 0]]%Z
  /\ Fixture.sample !! "index" = Some (BTensor [7%Z])
  /\ exists r st',
       test_step Fixture.ext Fixture.sample 0 Fixture.st0 = (OK r, st')
       /\ test_metrics st' = [("cat", "dog")]
       /\ val_metrics st' = [].
Proof.
  split; [reflexivity|]. split; [reflexivity|]. split; [reflexivity|].
  destruct (test_step_result Fixture.ext Fixture.sample Fixture.enc _ _ 0
              Fixture.st0 eq_refl eq_refl eq_refl)
    as (r & st' & Hs & _ & _ & _ & Hv & Ht & _).
  exists r, st'. split; [exact Hs|]. rewrite Hv, Ht. split; reflexivity.
Defined.

Lemma step_hooks_missing_encoded_witness :
  (∅ : batch) !! "encoded" = None
  /\ validation_step Fixture.ext ∅ 0 Fixture.st0
     = (Raise (KeyError "encoded"), Fixture.st0).
Proof.
  assert (Hb : (∅ : batch) !! "encoded" = None) by reflexivity.
  split; [exact Hb|].
  apply (step_hooks_missing_encoded Fixture.ext ∅ 0 Fixture.st0 Hb).
Defined.

Lemma predict_step_too_few_sequences_witness :
  Fixture.sample_short !! "encoded" = Some (BDict Fixture.enc)
  /\ Fixture.sample_short !! "index" = Some (BTensor [7; 8]%Z)
  /\ length (model_generate Fixture.ext (training Fixture.st0) Fixture.enc)
     < length [7; 8]%Z
  /\ exists st',
       predict_step Fixture.ext Fixture.sample_short 0 Fixture.st0
       = (Raise IndexError, st').
Proof.
  assert (Hl : length (model_generate Fixture.ext (training Fixture.st0) Fixture.enc)
               < length [7; 8]%Z) by (vm_compute; lia).
  split; [reflexivity|]. split; [reflexivity|]. split; [exact Hl|].
  destruct (predict_step_too_few_sequences Fixture.ext Fixture.sample_short
              Fixture.enc [7; 8]%Z 0 Fixture.st0 eq_refl eq_refl Hl)
    as (st' & Hs & _).
  exists st'. exact Hs.
Defined.

Lemma predict_step_missing_key_witness :
  (∅ : batch) !! "encoded" = None
  /\ predict_step Fixture.ext ∅ 0 Fixture.st0
     = (Raise (KeyError "encoded"), Fixture.st0)
  /\ Fixture.no_index !! "encoded" = Some (BDict Fixture.enc)
  /\ Fixture.no_index !! "index" = None
  /\ predict_step Fixture.ext Fixture.no_index 0 Fixture.st0
     = (Raise (KeyError "index"), Fixture.st0).
Proof.
  destruct (predict_step_missing_key Fixture.ext ∅ 0 Fixture.st0) as (H1 & _).
  destruct (predict_step_missing_key Fixture.ext Fixture.no_index 0 Fixture.st0)
    as (_ & H2).
  split; [reflexivity|]. split; [apply H1; reflexivity|].
  split; [reflexivity|]. split; [reflexivity|].
  apply (H2 Fixture.enc); reflexivity.
Defined.

Lemma predict_step_last_sample_wins_witness :
  Fixture.sample_dup !! "encoded" = Some (BDict Fixture.enc_pair)
  /\ Fixture.sample_dup !! "index" = Some (BTensor [7; 7]%Z)
  /\ length [7; 7]%Z
     <= length (model_generate Fixture.ext (training Fixture.st0) Fixture.enc_pair)
  /\ exists (output gathered : gmap Z string) st',
       predict_step Fixture.ext Fixture.sample_dup 0 Fixture.st0 = (OK gathered, st')
       /\ output !! 7%Z = Some "dog".
Proof.
  assert (Hl : length [7; 7]%Z
               <= length (model_generate Fixture.ext (training Fixture.st0)
                            Fixture.enc_pair)) by (vm_compute; lia).
  split; [reflexivity|]. split; [reflexivity|]. split; [exact Hl|].
  destruct (predict_step_last_sample_wins Fixture.ext Fixture.sample_dup
              Fixture.enc_pair [7; 7]%Z 0 Fixture.st0 eq_refl eq_refl Hl)
    as (output & gathered & st' & Hs & _ & Hv).
  exists output, gathered, st'. split; [exact Hs|].
  rewrite (Hv 1%nat 7%Z eq_refl); [reflexivity|].
  intros j Hj. destruct j as [|[|j]]; [lia|lia|discriminate].
Defined.

Lemma predict_step_keeps_mode_witness :
  Fixture.sample !! "encoded" = Some (BDict Fixture.enc)
  /\ Fixture.enc !! "labels" = Some [[4; 15; 7; 0]]%Z
  /\ Fixture.sample !! "index" = Some (BTensor [7%Z])
  /\ exists r st1 out st2,
       step Fixture.ext Fixture.sample "train" Fixture.st0 = (OK r, st1)
       /\ predict_step Fixture.ext Fixture.sample 0 st1 = (out, st2)
       /\ training st2 = true.
Proof.
  split; [reflexivity|]. split; [reflexivity|]. split; [reflexivity|].
  destruct (predict_step_keeps_mode Fixture.ext Fixture.sample Fixture.enc _ [7%Z] 0
              Fixture.st0 eq_refl eq_refl eq_refl)
    as ((r & st1 & out & st2 & Hs & Hp & Ht & _) & _).
  exists r, st1, out, st2. auto.
Defined.
